(** * bubblechat: the [Update] state machine of the terminal chat client

    A shallow embedding of [main.go] (the version with the header and
    the connectivity probe).  The program is a bubbletea application:
    [Update] receives one message at a time and returns the next model
    together with a command; commands run outside the loop and come
    back as messages.

    The bubbles components (text area, viewport, spinner), lipgloss
    styles, the glamour renderer, [strings.TrimSpace] and reflow's
    [wordwrap.String] are third-party code.  They are collected in two
    interfaces, [Types] and [Components]; every theorem holds for all
    of their implementations unless it names a contract it relies on.

    Writes to the log and to standard output, and the 100ms sleep of the
    tick handlers, are not part of the modelled state. *)

From Stdlib Require Import String Ascii List ZArith Bool Arith Lia.
Import ListNotations.

Open Scope string_scope.

(** ** Constants of [main.go] *)

Definition promptPrefix : string := "> ".
Definition responsePrefix : string := "> ".
Definition viewportTextWidth : Z := 80.
Definition GPT3Dot5Turbo : string := "gpt-3.5-turbo".

Definition promptColor : string := "#cda9d6".
Definition promptTextColor : string := "#fcfcfc".
Definition responseColor : string := "#b7e4cf".
Definition responseTextColor : string := "#e2cdb5".

(** ["\n"] and ["‎"] (bytes E2 80 8E in UTF-8). *)
Definition newline : string := String (ascii_of_nat 10) EmptyString.
Definition lrm : string :=
  String (ascii_of_nat 226)
    (String (ascii_of_nat 128) (String (ascii_of_nat 142) EmptyString)).

(** ** The backend's data (go-openai) *)

Definition ChatMessageRoleUser : string := "user".
Definition ChatMessageRoleAssistant : string := "assistant".

Record ChatCompletionMessage := {
  Role : string;
  Content : string
}.

Record ChatCompletionChoice := {
  Message : ChatCompletionMessage
}.

Record ChatCompletionResponse := {
  Choices : list ChatCompletionChoice
}.

(** [s[:len(s)-1]]: the slice expression panics on an empty slice. *)
Definition dropLast {A : Type} (s : list A) : option (list A) :=
  match s with
  | [] => None
  | _ :: _ => Some (removelast s)
  end.

(** The header indicator, as [headerModel.View] reads the two flags. *)
Inductive HeaderStatus := pending | succeeded | failed.

(** ** Third-party types *)

Class Types := {
  (** non-nil values of Go's [error] *)
  error : Type;
  (** [tea.KeyMsg] *)
  Key : Type;
  (** any other message the runtime can deliver (mouse, window size,
      cursor blink, ...) *)
  foreignMsg : Type;
  (** commands a component hands back from its own [Update] *)
  componentCmd : Type;
  textarea_Model : Type;
  viewport_Model : Type;
  spinner_Model : Type;
  (** a spinner's frames and rate ([spinner.MiniDot], [spinner.Line]) *)
  Spinner : Type;
  Style : Type;
  TermRenderer : Type
}.

Section Messages.
Context {T : Types}.

(** The cases of the type switch in [Update].  [TickMsg] is
    [spinner.TickMsg] with its [ID] and [tag]; its timestamp is never
    read. *)
Inductive Msg :=
| KeyMsg (k : Key)
| TickMsg (ID tag : Z)
| responseMsg (message : string) (err : option error)
| statusMsg (err : option error)
| errorMsg (e : error)
| otherMsg (x : foreignMsg).

#[warnings="-register-all"]
Inductive Cmd :=
| nilCmd
| Quit
| Blink
| Tick (s : spinner_Model)
| GetResponseCmd (message : string)
| GetStatusCmd
| component (c : componentCmd)
| Batch (cmds : list Cmd).

Definition cmdOf (c : option componentCmd) : Cmd :=
  match c with
  | Some c => component c
  | None => nilCmd
  end.

(** The chat completions a command dispatches, by their argument. *)
Fixpoint chatRequests (c : Cmd) : list string :=
  match c with
  | GetResponseCmd message => [message]
  | Batch cmds => flat_map chatRequests cmds
  | _ => []
  end.

(** The spinners a command reschedules. *)
Fixpoint ticks (c : Cmd) : list spinner_Model :=
  match c with
  | Tick s => [s]
  | Batch cmds => flat_map ticks cmds
  | _ => []
  end.

End Messages.

(** ** Third-party operations *)

Class Components {T : Types} := {
  (** [tea.KeyMsg.String] *)
  Key_String : Key -> string;

  textarea_New : textarea_Model;
  textarea_Update :
    textarea_Model -> Msg -> textarea_Model * option componentCmd;
  textarea_Value : textarea_Model -> string;
  textarea_Reset : textarea_Model -> textarea_Model;

  viewport_New : viewport_Model;
  viewport_Update :
    viewport_Model -> Msg -> viewport_Model * option componentCmd;
  viewport_SetContent : viewport_Model -> string -> viewport_Model;
  viewport_GotoBottom : viewport_Model -> viewport_Model;

  MiniDot : Spinner;
  Line : Spinner;
  (** [spinner.New(spinner.WithSpinner(s))]; every call draws a fresh
      ID, so the call's position in program order is an argument *)
  spinner_New : Spinner -> nat -> spinner_Model;
  spinner_Update :
    spinner_Model -> Msg -> spinner_Model * option componentCmd;
  spinner_View : spinner_Model -> string;
  spinner_ID : spinner_Model -> Z;

  StyleFromColor : string -> Style;
  headerStyle : Style;
  Style_Render : Style -> string -> string;

  NewTermRenderer : TermRenderer;
  (** [TermRenderer.Render]; the caller discards its error result *)
  TermRenderer_Render : TermRenderer -> string -> string;

  TrimSpace : string -> string;
  wordwrap_String : string -> Z -> string
}.

Section Chat.
Context {T : Types} {C : Components}.

(** *** The model *)

Record headerModel := {
  modelName : string;
  statusSpinner : spinner_Model;
  style : Style;
  requestDone : bool;
  requestSuccess : bool
}.

Record model := {
  header : headerModel;
  viewport : viewport_Model;
  messages : list string;
  textarea : textarea_Model;
  promptStyle : Style;
  promptTextStyle : Style;
  responseStyle : Style;
  responseTextStyle : Style;
  spinner : spinner_Model;
  waiting : bool;
  renderer : TermRenderer;
  err : option error
}.

Definition status (h : headerModel) : HeaderStatus :=
  if requestDone h then
    if requestSuccess h then succeeded else failed
  else pending.

(** Field assignments. *)

Definition set_statusSpinner (h : headerModel) (s : spinner_Model) :=
  {| modelName := modelName h; statusSpinner := s; style := style h;
     requestDone := requestDone h; requestSuccess := requestSuccess h |}.

Definition set_requestDone (h : headerModel) (b : bool) :=
  {| modelName := modelName h; statusSpinner := statusSpinner h;
     style := style h; requestDone := b;
     requestSuccess := requestSuccess h |}.

Definition set_requestSuccess (h : headerModel) (b : bool) :=
  {| modelName := modelName h; statusSpinner := statusSpinner h;
     style := style h; requestDone := requestDone h;
     requestSuccess := b |}.

Definition set_header (m : model) (h : headerModel) :=
  {| header := h; viewport := viewport m; messages := messages m;
     textarea := textarea m; promptStyle := promptStyle m;
     promptTextStyle := promptTextStyle m;
     responseStyle := responseStyle m;
     responseTextStyle := responseTextStyle m; spinner := spinner m;
     waiting := waiting m; renderer := renderer m; err := err m |}.

Definition set_viewport (m : model) (v : viewport_Model) :=
  {| header := header m; viewport := v; messages := messages m;
     textarea := textarea m; promptStyle := promptStyle m;
     promptTextStyle := promptTextStyle m;
     responseStyle := responseStyle m;
     responseTextStyle := responseTextStyle m; spinner := spinner m;
     waiting := waiting m; renderer := renderer m; err := err m |}.

Definition set_messages (m : model) (l : list string) :=
  {| header := header m; viewport := viewport m; messages := l;
     textarea := textarea m; promptStyle := promptStyle m;
     promptTextStyle := promptTextStyle m;
     responseStyle := responseStyle m;
     responseTextStyle := responseTextStyle m; spinner := spinner m;
     waiting := waiting m; renderer := renderer m; err := err m |}.

Definition set_textarea (m : model) (t : textarea_Model) :=
  {| header := header m; viewport := viewport m; messages := messages m;
     textarea := t; promptStyle := promptStyle m;
     promptTextStyle := promptTextStyle m;
     responseStyle := responseStyle m;
     responseTextStyle := responseTextStyle m; spinner := spinner m;
     waiting := waiting m; renderer := renderer m; err := err m |}.

Definition set_spinner (m : model) (s : spinner_Model) :=
  {| header := header m; viewport := viewport m; messages := messages m;
     textarea := textarea m; promptStyle := promptStyle m;
     promptTextStyle := promptTextStyle m;
     responseStyle := responseStyle m;
     responseTextStyle := responseTextStyle m; spinner := s;
     waiting := waiting m; renderer := renderer m; err := err m |}.

Definition set_waiting (m : model) (b : bool) :=
  {| header := header m; viewport := viewport m; messages := messages m;
     textarea := textarea m; promptStyle := promptStyle m;
     promptTextStyle := promptTextStyle m;
     responseStyle := responseStyle m;
     responseTextStyle := responseTextStyle m; spinner := spinner m;
     waiting := b; renderer := renderer m; err := err m |}.

Definition set_err (m : model) (e : option error) :=
  {| header := header m; viewport := viewport m; messages := messages m;
     textarea := textarea m; promptStyle := promptStyle m;
     promptTextStyle := promptTextStyle m;
     responseStyle := responseStyle m;
     responseTextStyle := responseTextStyle m; spinner := spinner m;
     waiting := waiting m; renderer := renderer m; err := e |}.

(** *** [UpdateViewport] *)

Definition UpdateViewport (m : model) : model :=
  let toDisplay := String.concat newline (messages m) ++ newline ++ lrm in
  let toDisplay :=
    TermRenderer_Render (renderer m) (toDisplay ++ newline ++ " ") in
  set_viewport m (viewport_SetContent (viewport m) toDisplay).

(** The two kinds of transcript entry [Update] builds. *)

Definition promptEntry (m : model) (message : string) : string :=
  Style_Render (promptStyle m) promptPrefix
    ++ Style_Render (promptTextStyle m) message.

Definition placeholderEntry (m : model) : string :=
  Style_Render (responseStyle m) responsePrefix
    ++ spinner_View (spinner m).

Definition responseEntry (m : model) (message : string) : string :=
  Style_Render (responseStyle m) responsePrefix
    ++ Style_Render (responseTextStyle m) message.

(** *** [Update]

    [None] is a run-time panic (a slice bound out of range). *)

(** The three component updates that precede the type switch. *)
Definition forward (m : model) (msg : Msg)
  : model * (option componentCmd * option componentCmd
             * option componentCmd) :=
  let (ta, textInputCmd) := textarea_Update (textarea m) msg in
  let m := set_textarea m ta in
  let (vp, viewportCmd) := viewport_Update (viewport m) msg in
  let m := set_viewport m vp in
  if waiting m then
    let (sp, spinnerCmd) := spinner_Update (spinner m) msg in
    (set_spinner m sp, (textInputCmd, viewportCmd, spinnerCmd))
  else (m, (textInputCmd, viewportCmd, None)).

Definition isQuitKey (s : string) : bool :=
  (s =? "ctrl+c") || (s =? "q") || (s =? "esc").

Definition Update (m : model) (msg : Msg) : option (model * Cmd) :=
  let '(m, (textInputCmd, viewportCmd, spinnerCmd)) := forward m msg in
  match msg with
  | KeyMsg k =>
      if isQuitKey (Key_String k) then Some (m, Quit)
      else if Key_String k =? "enter" then
        let message := TrimSpace (textarea_Value (textarea m)) in
        let message := wordwrap_String message (viewportTextWidth - 3) in
        let m := set_messages m (messages m ++ [promptEntry m message])%list in
        let m := set_messages m (messages m ++ [placeholderEntry m])%list in
        let m := UpdateViewport m in
        let m := set_textarea m (textarea_Reset (textarea m)) in
        let m := set_viewport m (viewport_GotoBottom (viewport m)) in
        let m := set_waiting m true in
        Some (m, Batch [Tick (spinner m); GetResponseCmd message;
                        cmdOf textInputCmd; cmdOf viewportCmd])
      else
        Some (m, Batch [cmdOf textInputCmd; cmdOf viewportCmd;
                        cmdOf spinnerCmd])
  | TickMsg ID _ =>
      if (ID =? spinner_ID (spinner m))%Z then
        if negb (waiting m) then Some (m, nilCmd)
        else
          let m := set_spinner m (fst (spinner_Update (spinner m) msg)) in
          let updatedMessage := placeholderEntry m in
          match dropLast (messages m) with
          | None => None
          | Some init =>
              let m := set_messages m (init ++ [updatedMessage])%list in
              let m := UpdateViewport m in
              let m := set_textarea m (textarea_Reset (textarea m)) in
              let m := set_viewport m (viewport_GotoBottom (viewport m)) in
              Some (m, Batch [Tick (spinner m); cmdOf textInputCmd;
                              cmdOf viewportCmd])
          end
      else if (ID =? spinner_ID (statusSpinner (header m)))%Z then
        if requestDone (header m) then Some (m, nilCmd)
        else
          let s := fst (spinner_Update (statusSpinner (header m)) msg) in
          let m := set_header m (set_statusSpinner (header m) s) in
          Some (m, Batch [Tick (statusSpinner (header m));
                          cmdOf textInputCmd; cmdOf viewportCmd])
      else Some (m, nilCmd)
  | responseMsg message e =>
      let m := set_waiting m false in
      match e with
      | Some e => Some (set_err m (Some e), nilCmd)
      | None =>
          let message :=
            wordwrap_String message (viewportTextWidth - 3) in
          let response := responseEntry m message in
          match dropLast (messages m) with
          | None => None
          | Some init =>
              let m := set_messages m (init ++ [response])%list in
              let m := UpdateViewport m in
              let m := set_viewport m (viewport_GotoBottom (viewport m)) in
              Some (m, nilCmd)
          end
      end
  | statusMsg e =>
      let m := set_header m (set_requestDone (header m) true) in
      match e with
      | Some e => Some (set_err m (Some e), nilCmd)
      | None =>
          let m := set_header m (set_requestSuccess (header m) true) in
          Some (m, nilCmd)
      end
  | errorMsg e => Some (set_err m (Some e), nilCmd)
  | otherMsg _ =>
      Some (m, Batch [cmdOf textInputCmd; cmdOf viewportCmd;
                      cmdOf spinnerCmd])
  end.

(** *** [initialModel] and [Init] *)

Definition NewHeader : headerModel :=
  {| modelName := GPT3Dot5Turbo;
     statusSpinner := spinner_New Line 0;
     style := headerStyle;
     requestDone := false;
     requestSuccess := false |}.

Definition initialModel : model :=
  {| header := NewHeader;
     viewport := viewport_New;
     messages := [];
     textarea := textarea_New;
     promptStyle := StyleFromColor promptColor;
     promptTextStyle := StyleFromColor promptTextColor;
     responseStyle := StyleFromColor responseColor;
     responseTextStyle := StyleFromColor responseTextColor;
     spinner := spinner_New MiniDot 1;
     waiting := false;
     renderer := NewTermRenderer;
     err := None |}.

Definition Init (m : model) : Cmd :=
  Batch [Blink; GetStatusCmd; Tick (statusSpinner (header m))].

(** *** The closure of [GetResponseCmd]

    The closure runs outside the loop.  It appends the user entry to
    the package variable [chatMessages], blocks in
    [CreateChatCompletion], and on return appends the first choice and
    builds the [responseMsg].  [None] is the panic of indexing an empty
    [Choices]. *)

Definition GetResponseCmd_send (message : string)
    (chat : list ChatCompletionMessage) : list ChatCompletionMessage :=
  (chat ++ [{| Role := ChatMessageRoleUser; Content := message |}])%list.

Definition GetResponseCmd_receive (resp : ChatCompletionResponse)
    (e : option error) (chat : list ChatCompletionMessage)
    : option (list ChatCompletionMessage * Msg) :=
  match Choices resp with
  | [] => None
  | c :: _ =>
      Some ((chat ++ [Message c])%list,
            responseMsg (Content (Message c)) e)
  end.

(** *** The program as the runtime drives it

    [queued] holds the arguments of the [GetResponseCmd] closures that
    [Update] returned and that have not started, [calling] counts the
    closures blocked in the backend call, [results] holds the messages
    closures returned and the loop has not yet received.  [tea.Quit]
    ends the loop; runs here may go on past it, which only adds
    states. *)

Record World := {
  ui : model;
  chatMessages : list ChatCompletionMessage;
  queued : list string;
  calling : nat;
  results : list Msg
}.

(** [Deliver msg]: the runtime hands [msg] to [Update]; a [responseMsg]
    is built by a closure only and comes in through [Result].
    [Start i]: the i-th queued closure starts and appends its user
    entry.  [Return resp e]: the backend call of a blocked closure
    returns.  [Result i]: the i-th undelivered result is handed to
    [Update].  A step is [Disabled] when the event cannot occur in the
    state, and a [Crash] when the code panics. *)
Inductive Event :=
| Deliver (msg : Msg)
| Start (i : nat)
| Return (resp : ChatCompletionResponse) (e : option error)
| Result (i : nat).

Inductive outcome :=
| Next (w : World)
| Crash
| Disabled.

Definition isResponse (msg : Msg) : bool :=
  match msg with
  | responseMsg _ _ => true
  | _ => false
  end.

Fixpoint extract {A : Type} (i : nat) (l : list A) {struct l}
  : option (A * list A) :=
  match l, i with
  | [], _ => None
  | x :: l', O => Some (x, l')
  | x :: l', S i' =>
      match extract i' l' with
      | Some (y, r) => Some (y, x :: r)
      | None => None
      end
  end.

Definition handle (w : World) (msg : Msg) : outcome :=
  match Update (ui w) msg with
  | None => Crash
  | Some (m, c) =>
      Next {| ui := m;
              chatMessages := chatMessages w;
              queued := (queued w ++ chatRequests c)%list;
              calling := calling w;
              results := results w |}
  end.

Definition step (w : World) (e : Event) : outcome :=
  match e with
  | Deliver msg => if isResponse msg then Disabled else handle w msg
  | Start i =>
      match extract i (queued w) with
      | None => Disabled
      | Some (message, rest) =>
          Next {| ui := ui w;
                  chatMessages :=
                    GetResponseCmd_send message (chatMessages w);
                  queued := rest;
                  calling := S (calling w);
                  results := results w |}
      end
  | Return resp e =>
      match calling w with
      | O => Disabled
      | S n =>
          match GetResponseCmd_receive resp e (chatMessages w) with
          | None => Crash
          | Some (chat, r) =>
              Next {| ui := ui w;
                      chatMessages := chat;
                      queued := queued w;
                      calling := n;
                      results := (results w ++ [r])%list |}
          end
      end
  | Result i =>
      match extract i (results w) with
      | None => Disabled
      | Some (r, rest) =>
          handle {| ui := ui w;
                    chatMessages := chatMessages w;
                    queued := queued w;
                    calling := calling w;
                    results := rest |} r
      end
  end.

Fixpoint run (w : World) (evs : list Event) : outcome :=
  match evs with
  | [] => Next w
  | e :: evs' =>
      match step w e with
      | Next w' => run w' evs'
      | o => o
      end
  end.

Definition start : World :=
  {| ui := initialModel;
     chatMessages := [];
     queued := chatRequests (Init initialModel);
     calling := 0;
     results := [] |}.

Definition reachable (w : World) : Prop :=
  exists evs, run start evs = Next w.

(** A submit is an enter key that is not also a quit key. *)
Definition isSubmit (e : Event) : bool :=
  match e with
  | Deliver (KeyMsg k) =>
      negb (isQuitKey (Key_String k)) && (Key_String k =? "enter")
  | _ => false
  end.

Definition submits (evs : list Event) : nat :=
  length (filter isSubmit evs).

(** No chat completion is dispatched, in flight or undelivered. *)
Definition quiescent (w : World) : Prop :=
  queued w = [] /\ calling w = 0 /\ results w = [].

Definition outstanding (w : World) : nat :=
  length (queued w) + calling w + length (results w).

(** Runs in which every submit arrives while [waiting] is false. *)
Fixpoint turnTaking (w : World) (evs : list Event) : Prop :=
  match evs with
  | [] => True
  | e :: evs' =>
      (isSubmit e = true -> waiting (ui w) = false) /\
      match step w e with
      | Next w' => turnTaking w' evs'
      | _ => True
      end
  end.

(** Runs in which the backend answers in the assistant role. *)
Definition assistantReply (e : Event) : Prop :=
  match e with
  | Return resp _ =>
      forall c, In c (Choices resp) ->
                Role (Message c) = ChatMessageRoleAssistant
  | _ => True
  end.

(** *** Vocabulary of the properties *)

(** The fields [Update] never assigns. *)
Definition sameStyles (m m' : model) : Prop :=
  promptStyle m' = promptStyle m /\
  promptTextStyle m' = promptTextStyle m /\
  responseStyle m' = responseStyle m /\
  responseTextStyle m' = responseTextStyle m /\
  renderer m' = renderer m.

(** An entry in the response style: the placeholder or a reply. *)
Definition assistantLine (m : model) (text : string) : string :=
  Style_Render (responseStyle m) responsePrefix ++ text.

(** What one call of [Update] does to the transcript, to [waiting] and
    to the completions it dispatches. *)
Inductive effect (m : model) (msg : Msg) (m' : model) (c : Cmd) : Prop :=
| effect_submit (message text : string) :
    isSubmit (Deliver msg) = true ->
    messages m' =
      (messages m ++ [promptEntry m message; assistantLine m text])%list ->
    waiting m' = true ->
    chatRequests c = [message] ->
    effect m msg m' c
| effect_tick (text : string) :
    isSubmit (Deliver msg) = false ->
    isResponse msg = false ->
    messages m <> [] ->
    waiting m = true ->
    waiting m' = true ->
    messages m' =
      (removelast (messages m) ++ [assistantLine m text])%list ->
    chatRequests c = [] ->
    effect m msg m' c
| effect_reply (text : string) :
    isResponse msg = true ->
    messages m <> [] ->
    waiting m' = false ->
    messages m' =
      (removelast (messages m) ++ [assistantLine m text])%list ->
    chatRequests c = [] ->
    effect m msg m' c
| effect_failed :
    isResponse msg = true ->
    waiting m' = false ->
    messages m' = messages m ->
    chatRequests c = [] ->
    effect m msg m' c
| effect_other :
    isSubmit (Deliver msg) = false ->
    isResponse msg = false ->
    waiting m' = waiting m ->
    messages m' = messages m ->
    chatRequests c = [] ->
    effect m msg m' c.

(** Transcripts made of a user entry followed by an entry in the
    response style, turn after turn. *)
Inductive alternates : list string -> Prop :=
| alternates_nil : alternates []
| alternates_turn (l : list string) (message text : string) :
    alternates l ->
    alternates
      (l ++ [promptEntry initialModel message;
             assistantLine initialModel text])%list.

(** The roles of [n] turns in the conversation history. *)
Definition turnRoles (n : nat) : list string :=
  concat (repeat [ChatMessageRoleUser; ChatMessageRoleAssistant] n).

(** The four ways the program moves, as [step] computes them. *)
Inductive moves (w : World) : Event -> World -> Prop :=
| moves_deliver (msg : Msg) (m' : model) (c : Cmd) :
    isResponse msg = false ->
    Update (ui w) msg = Some (m', c) ->
    moves w (Deliver msg)
      {| ui := m';
         chatMessages := chatMessages w;
         queued := (queued w ++ chatRequests c)%list;
         calling := calling w;
         results := results w |}
| moves_start (i : nat) (message : string) (rest : list string) :
    extract i (queued w) = Some (message, rest) ->
    moves w (Start i)
      {| ui := ui w;
         chatMessages := GetResponseCmd_send message (chatMessages w);
         queued := rest;
         calling := S (calling w);
         results := results w |}
| moves_return (resp : ChatCompletionResponse) (e : option error)
    (n : nat) (c : ChatCompletionChoice) (cs : list ChatCompletionChoice) :
    calling w = S n ->
    Choices resp = c :: cs ->
    moves w (Return resp e)
      {| ui := ui w;
         chatMessages := (chatMessages w ++ [Message c])%list;
         queued := queued w;
         calling := n;
         results :=
           (results w ++ [responseMsg (Content (Message c)) e])%list |}
| moves_result (i : nat) (r : Msg) (rest : list Msg)
    (m' : model) (c : Cmd) :
    extract i (results w) = Some (r, rest) ->
    Update (ui w) r = Some (m', c) ->
    moves w (Result i)
      {| ui := m';
         chatMessages := chatMessages w;
         queued := (queued w ++ chatRequests c)%list;
         calling := calling w;
         results := rest |}.

(** What holds of every reachable state of the program. *)
Definition wellFormed (w : World) : Prop :=
  sameStyles initialModel (ui w) /\
  alternates (messages (ui w)) /\
  Forall (fun r => isResponse r = true) (results w) /\
  (waiting (ui w) = true -> messages (ui w) <> []) /\
  (results w <> [] -> chatMessages w <> []) /\
  length (chatMessages w) + 2 * length (queued w) + calling w
    = length (messages (ui w)).


(** One turn at a time: at most one chat completion is outstanding,
    and none when nothing is awaited. *)
Definition oneAtATime (w : World) : Prop :=
  outstanding w <= 1 /\
  (waiting (ui w) = false -> outstanding w = 0).

(** The history is a sequence of completed turns followed by the user
    entry of each closure that is blocked in the backend call. *)
Definition historyInTurn (w : World) : Prop :=
  exists n,
    map Role (chatMessages w) =
    (turnRoles n ++ repeat ChatMessageRoleUser (calling w))%list.

End Chat.

(** ** The rest of [main.go] *)

Definition viewportPadding : Z := 1.
Definition viewportWidth : Z := viewportTextWidth + 2 * viewportPadding.

(** ["✔"] and ["✘"] (bytes E2 9C 94 and E2 9C 98 in UTF-8). *)
Definition checkMark : string :=
  String (ascii_of_nat 226)
    (String (ascii_of_nat 156) (String (ascii_of_nat 148) EmptyString)).
Definition crossMark : string :=
  String (ascii_of_nat 226)
    (String (ascii_of_nat 156) (String (ascii_of_nat 152) EmptyString)).

(** Go's [len] of a string: its number of bytes. *)
Definition len (s : string) : Z := Z.of_nat (String.length s).

(** [strings.Repeat]: it panics on a negative count and when the
    length of the result overflows [int]. *)
Definition maxInt : Z := 2 ^ 63 - 1.

Fixpoint copies (s : string) (n : nat) : string :=
  match n with
  | O => EmptyString
  | S n' => s ++ copies s n'
  end.

Definition Repeat (s : string) (count : Z) : option string :=
  if (count <? 0)%Z then None
  else if (maxInt <? len s * count)%Z then None
  else Some (copies s (Z.to_nat count)).

(** [strings.Count(s, "\n")]: the number of newline bytes of [s]. *)
Fixpoint CountNewline (s : string) : Z :=
  match s with
  | EmptyString => 0
  | String c s' =>
      ((if Ascii.eqb c (ascii_of_nat 10) then 1 else 0) + CountNewline s')%Z
  end.

(** How a function of [main] ends: it returns, or [log.Fatal] prints a
    line and exits the process. *)
Inductive exit (A : Type) :=
| Returns (a : A)
| Fatal (line : string).

Arguments Returns {A} a.
Arguments Fatal {A} line.

Section More.
Context {T : Types} {C : Components}.

(** [getApiKey]: [Load] is the result of [godotenv.Load], [Getenv] the
    environment as [os.Getenv] reads it afterwards. *)
Definition getApiKey (Load : option error) (Getenv : string -> string)
  : exit string :=
  match Load with
  | Some _ => Fatal "Error loading .env file"
  | None =>
      let apiKey := Getenv "OPENAI_API_KEY" in
      if apiKey =? "" then Fatal "OPENAI_API_KEY is not set"
      else Returns apiKey
  end.

(** [headerModel.View]; [None] is the panic of [strings.Repeat].  The
    padding is computed from the field [modelName], the text shows the
    package constant, go-openai's [GPT3Dot5Turbo] (13 bytes). *)
Definition headerModel_View (h : headerModel) : option string :=
  let (rightIcon, padAmount) :=
    if requestDone h then
      (if requestSuccess h then checkMark else crossMark, 2%Z)
    else (spinner_View (statusSpinner h), 4%Z) in
  match Repeat " " (viewportWidth - len (modelName h) - len rightIcon
                    - padAmount) with
  | None => None
  | Some middlePadding =>
      Some (Style_Render (style h)
              (GPT3Dot5Turbo ++ middlePadding ++ rightIcon))
  end.

(** The text [UpdateViewport] hands to the viewport. *)
Definition display (m : model) : string :=
  TermRenderer_Render (renderer m)
    ((String.concat newline (messages m) ++ newline ++ lrm)
       ++ newline ++ " ").

(** The connectivity probes a command dispatches. *)
Fixpoint probes (c : Cmd) : nat :=
  match c with
  | GetStatusCmd => 1
  | Batch cmds => list_sum (map probes cmds)
  | _ => 0
  end.

(** The errors of the probe results a run delivers, in order. *)
Fixpoint probeResults (evs : list Event) : list (option error) :=
  match evs with
  | [] => []
  | Deliver (statusMsg e) :: evs' => e :: probeResults evs'
  | _ :: evs' => probeResults evs'
  end.

(** The error a message carries, if any. *)
Definition errorOf (msg : Msg) : option error :=
  match msg with
  | responseMsg _ e => e
  | statusMsg e => e
  | errorMsg e => Some e
  | _ => None
  end.

(** A probe result, and a probe result without error. *)
Definition isStatus (msg : Msg) : bool :=
  match msg with
  | statusMsg _ => true
  | _ => false
  end.

Definition isGoodStatus (msg : Msg) : bool :=
  match msg with
  | statusMsg None => true
  | _ => false
  end.

Definition isNil (e : option error) : bool :=
  match e with
  | None => true
  | Some _ => false
  end.

(** The closures a run starts and the backend calls that return. *)
Definition isClosureStep (e : Event) : bool :=
  match e with
  | Start _ | Return _ _ => true
  | _ => false
  end.

End More.

(** ** The first version of the program (the first part of [main.go])

    Its [UpdateViewport] pads the transcript with empty lines so that
    the chat starts from the bottom of the viewport. *)

Module FirstVersion.

Definition viewportHeight : Z := 20.

Definition max (a b : Z) : Z :=
  if (a >? b)%Z then a else b.

Section Program.
Context {T : Types} {C : Components}.

Record model := {
  viewport : viewport_Model;
  messages : list string;
  rawMessages : list string;
  textarea : textarea_Model;
  senderStyle : Style;
  receiverStyle : Style;
  spinner : spinner_Model;
  waiting : bool;
  err : option error
}.

Definition set_viewport (m : model) (v : viewport_Model) : model :=
  {| viewport := v; messages := messages m;
     rawMessages := rawMessages m; textarea := textarea m;
     senderStyle := senderStyle m; receiverStyle := receiverStyle m;
     spinner := spinner m; waiting := waiting m; err := err m |}.

(** [None] is the panic of [strings.Repeat]. *)
Definition UpdateViewport (m : model) : option model :=
  let joinedMessages := String.concat newline (messages m) in
  let nbrLines := (CountNewline joinedMessages + 1)%Z in
  match Repeat newline (max (viewportHeight - nbrLines - 2) 0) with
  | None => None
  | Some offset =>
      Some (set_viewport m
              (viewport_SetContent (viewport m) (offset ++ joinedMessages)))
  end.

End Program.

End FirstVersion.

(** ** A small implementation of the interfaces

    Used to run the program on concrete inputs.  Keys are given by
    their [String], styles and the renderer add nothing to the text, the
    text area holds the typed characters, a spinner advances on the
    ticks that carry its ID, and no demo input reaches the wrap limit. *)

Module Demo.

Record viewportD := { content : string; atBottom : bool }.

Record spinnerD := { sid : Z; frame : nat; frames : list string }.

Definition types : Types :=
  {| error := string;
     Key := string;
     foreignMsg := unit;
     componentCmd := unit;
     textarea_Model := string;
     viewport_Model := viewportD;
     spinner_Model := spinnerD;
     Spinner := list string;
     Style := string;
     TermRenderer := unit |}.

Definition isSpace (c : ascii) : bool :=
  match nat_of_ascii c with
  | 9 | 10 | 11 | 12 | 13 | 32 => true
  | _ => false
  end.

Fixpoint trimLeft (s : string) : string :=
  match s with
  | EmptyString => EmptyString
  | String c s' => if isSpace c then trimLeft s' else s
  end.

Fixpoint trimRight (s : string) : string :=
  match s with
  | EmptyString => EmptyString
  | String c s' =>
      let r := trimRight s' in
      if isSpace c && (r =? "") then "" else String c r
  end.

Definition typeKey (value : string) (msg : @Msg types) : string :=
  match msg with
  | KeyMsg k => if (String.length k =? 1)%nat then value ++ k else value
  | _ => value
  end.

Definition spin (s : spinnerD) (msg : @Msg types) : spinnerD * option unit :=
  match msg with
  | TickMsg ID _ =>
      if (ID =? sid s)%Z then
        ({| sid := sid s;
            frame := Nat.modulo (S (frame s)) (length (frames s));
            frames := frames s |}, Some tt)
      else (s, None)
  | _ => (s, None)
  end.

Definition components : @Components types :=
  @Build_Components types
    (* Key_String *) (fun k : string => k)
    (* textarea_New *) ""
    (* textarea_Update *) (fun ta msg => (typeKey ta msg, None))
    (* textarea_Value *) (fun ta : string => ta)
    (* textarea_Reset *) (fun _ : string => "")
    (* viewport_New *) {| content := ""; atBottom := true |}
    (* viewport_Update *) (fun vp _ => (vp, None))
    (* viewport_SetContent *)
    (fun vp s => {| content := s; atBottom := atBottom vp |})
    (* viewport_GotoBottom *)
    (fun vp => {| content := content vp; atBottom := true |})
    (* MiniDot *) ["."; ":"; "'"; ":"]
    (* Line *) ["|"; "/"; "-"]
    (* spinner_New *)
    (fun fs n => {| sid := Z.of_nat (S n); frame := 0; frames := fs |})
    (* spinner_Update *) spin
    (* spinner_View *) (fun s => nth (frame s) (frames s) "")
    (* spinner_ID *) sid
    (* StyleFromColor *) (fun c : string => c)
    (* headerStyle *) "#636363"
    (* Style_Render *) (fun _ s => s)
    (* NewTermRenderer *) tt
    (* TermRenderer_Render *) (fun _ s => s)
    (* TrimSpace *) (fun s => trimRight (trimLeft s))
    (* wordwrap_String *) (fun s _ => s).

Definition Update := @Update types components.
Definition run := @run types components.
Definition start := @start types components.

(** The enter key, a chat-spinner tick and a successful reply. *)
Definition key (s : string) : @Msg types := @KeyMsg types s.
Definition enter : @Msg types := key "enter".
Definition chatTick : @Msg types := @TickMsg types 2 0.
Definition reply (text : string) : ChatCompletionResponse :=
  {| Choices :=
       [{| Message := {| Role := ChatMessageRoleAssistant;
                         Content := text |} |}] |}.

Definition probeResult (text : option string) : @Msg types :=
  @statusMsg types text.

(** The state a run from [start] ends in. *)
Definition world (evs : list (@Event types)) : @World types :=
  match run start evs with
  | Next w => w
  | _ => start
  end.

(** The model and the command [Update] returns. *)
Definition modelAfter (m : @model types) (msg : @Msg types) : @model types :=
  match Update m msg with
  | Some (m', _) => m'
  | None => m
  end.

Definition cmdAfter (m : @model types) (msg : @Msg types) : @Cmd types :=
  match Update m msg with
  | Some (_, c) => c
  | None => nilCmd
  end.

(** Typing [h], [i] and pressing enter. *)
Definition sayHi : list (@Event types) :=
  [Deliver (key "h"); Deliver (key "i"); Deliver enter].

(** One turn: the closure starts, the backend answers, the result is
    delivered. *)
Definition answer (text : string) : list (@Event types) :=
  [Start 0; Return (reply text) None; Result 0].

(** Two submits before any answer, then both closures run side by
    side. *)
Definition overlapping : list (@Event types) :=
  [Deliver (key "h"); Deliver enter; Deliver enter;
   Start 0; Start 0;
   Return (reply "hello") None; Return (reply "again") None;
   Result 0; Result 0].

(** A blank line in the text area: a typed space. *)
Definition blank : @model types :=
  modelAfter (@initialModel types components) (key " ").

(** Two turns, one after the other. *)
Definition twoTurns : list (@Event types) :=
  sayHi ++ answer "hello" ++ [Deliver (key "y"); Deliver enter]
        ++ answer "again".

(** The model that awaits the answer to [hi], with [a] typed since. *)
Definition typing : @model types :=
  modelAfter (ui (world sayHi)) (key "a").

(** The answer to [hi] has come back from the backend and waits to be
    delivered. *)
Definition answered : list (@Event types) :=
  sayHi ++ [Start 0; Return (reply "hello") None].

(** The probe fails, and a second probe result without error is
    delivered. *)
Definition probing : list (@Event types) :=
  [Deliver (probeResult (Some "no route")); Deliver (probeResult None)].

(** A tick of the header spinner (ID 1), and a failure message. *)
Definition headerTick : @Msg types := @TickMsg types 1 0.
Definition failure : @Msg types := @errorMsg types "boom".

(** The closure for [hi] is blocked in the backend call. *)
Definition asking : list (@Event types) := sayHi ++ [Start 0].

End Demo.

(** ** Properties of [Update] *)

Section Properties.
Context {T : Types} {C : Components}.

Local Open Scope list_scope.

(** The model after the component updates that precede the switch. *)
Lemma forward_eq (m : model) (msg : Msg) :
  forward m msg =
  (set_spinner
     (set_viewport
        (set_textarea m (fst (textarea_Update (textarea m) msg)))
        (fst (viewport_Update (viewport m) msg)))
     (if waiting m then fst (spinner_Update (spinner m) msg)
      else spinner m),
   (snd (textarea_Update (textarea m) msg),
    snd (viewport_Update (viewport m) msg),
    if waiting m then snd (spinner_Update (spinner m) msg) else None)).
Proof.
  unfold forward.
  destruct (textarea_Update (textarea m) msg) as [ta c1].
  destruct (viewport_Update (viewport (set_textarea m ta)) msg) as [vp c2]
    eqn:Hvp.
  simpl in *. rewrite Hvp. simpl.
  destruct (waiting m); [ | reflexivity ].
  destruct (spinner_Update (spinner m) msg); reflexivity.
Qed.

Lemma forward_fields (m : model) (msg : Msg) :
  waiting (fst (forward m msg)) = waiting m /\
  messages (fst (forward m msg)) = messages m /\
  header (fst (forward m msg)) = header m /\
  err (fst (forward m msg)) = err m /\
  sameStyles m (fst (forward m msg)).
Proof.
  rewrite forward_eq. unfold sameStyles. simpl. repeat split.
Qed.

Lemma enter_not_quit (s : string) :
  (s =? "enter") = true -> isQuitKey s = false.
Proof.
  intro H. apply String.eqb_eq in H. subst s. reflexivity.
Qed.

Lemma dropLast_Some {A : Type} (l init : list A) :
  dropLast l = Some init -> l <> [] /\ init = removelast l.
Proof.
  destruct l; simpl; intro H; [ discriminate | ].
  inversion H. split; [ discriminate | reflexivity ].
Qed.

Lemma dropLast_nonempty {A : Type} (l : list A) :
  l <> [] -> dropLast l = Some (removelast l).
Proof.
  destruct l; [ congruence | reflexivity ].
Qed.

Lemma Update_sameStyles (m m' : model) (msg : Msg) (c : Cmd) :
  Update m msg = Some (m', c) -> sameStyles m m'.
Proof.
  unfold Update. rewrite forward_eq. unfold sameStyles.
  destruct msg; simpl; intro H.
  - destruct (isQuitKey (Key_String k)).
    + inversion H; subst; simpl; repeat split.
    + destruct (Key_String k =? "enter");
        inversion H; subst; simpl; repeat split.
  - repeat match type of H with
           | context [if ?b then _ else _] => destruct b
           | context [match dropLast ?l with _ => _ end] =>
               destruct (dropLast l)
           end;
      inversion H; subst; simpl; repeat split.
  - destruct err0; [ | destruct (dropLast (messages m)) ];
      inversion H; subst; simpl; repeat split.
  - destruct err0; inversion H; subst; simpl; repeat split.
  - inversion H; subst; simpl; repeat split.
  - inversion H; subst; simpl; repeat split.
Qed.

Lemma chatRequests_cmdOf (c : option componentCmd) :
  chatRequests (cmdOf c) = [].
Proof. destruct c; reflexivity. Qed.

Lemma ticks_cmdOf (c : option componentCmd) : ticks (cmdOf c) = [].
Proof. destruct c; reflexivity. Qed.

Lemma Update_effect (m m' : model) (msg : Msg) (c : Cmd) :
  Update m msg = Some (m', c) -> effect m msg m' c.
Proof.
  unfold Update. rewrite forward_eq.
  destruct msg; simpl; intro H.
  - destruct (isQuitKey (Key_String k)) eqn:Q.
    + inversion H; subst.
      apply effect_other; simpl; try reflexivity. now rewrite Q.
    + destruct (Key_String k =? "enter") eqn:E; inversion H; subst.
      * eapply effect_submit; simpl.
        -- now rewrite Q, E.
        -- rewrite <- app_assoc. reflexivity.
        -- reflexivity.
        -- now rewrite !chatRequests_cmdOf.
      * apply effect_other; simpl; try reflexivity.
        -- now rewrite Q, E.
        -- now rewrite !chatRequests_cmdOf.
  - destruct (ID =? spinner_ID _)%Z.
    + destruct (waiting m) eqn:W; simpl in H.
      * destruct (dropLast (messages m)) as [init | ] eqn:D;
          [ | discriminate ].
        apply dropLast_Some in D. destruct D as [Hne ->].
        inversion H; subst.
        eapply effect_tick; simpl; try reflexivity; try assumption.
        now rewrite !chatRequests_cmdOf.
      * inversion H; subst.
        apply effect_other; simpl; auto.
    + destruct (ID =? spinner_ID _)%Z.
      * destruct (requestDone (header m)); inversion H; subst;
          apply effect_other; simpl; auto.
        now rewrite !chatRequests_cmdOf.
      * inversion H; subst. apply effect_other; simpl; auto.
  - destruct err0.
    + inversion H; subst. apply effect_failed; reflexivity.
    + destruct (dropLast (messages m)) as [init | ] eqn:D;
        [ | discriminate ].
      apply dropLast_Some in D. destruct D as [Hne ->].
      inversion H; subst.
      eapply effect_reply; simpl; try reflexivity; assumption.
  - destruct err0; inversion H; subst; apply effect_other; reflexivity.
  - inversion H; subst. apply effect_other; reflexivity.
  - inversion H; subst. apply effect_other; simpl; try reflexivity.
    now rewrite !chatRequests_cmdOf.
Qed.

(** *** Runs *)

Lemma step_moves (w w' : World) (e : Event) :
  step w e = Next w' -> moves w e w'.
Proof.
  destruct e as [msg | i | resp e | i]; simpl.
  - destruct (isResponse msg) eqn:R; [ discriminate | ].
    unfold handle.
    destruct (Update (ui w) msg) as [[m' c] | ] eqn:U; [ | discriminate ].
    intro H; inversion H; subst. now apply moves_deliver.
  - destruct (extract i (queued w)) as [[message rest] | ] eqn:X;
      [ | discriminate ].
    intro H; inversion H; subst. now apply moves_start.
  - destruct (calling w) as [ | n] eqn:N; [ discriminate | ].
    unfold GetResponseCmd_receive.
    destruct (Choices resp) as [ | c cs] eqn:Ch; [ discriminate | ].
    intro H; inversion H; subst. now apply moves_return with (cs := cs).
  - destruct (extract i (results w)) as [[r rest] | ] eqn:X;
      [ | discriminate ].
    unfold handle; simpl.
    destruct (Update (ui w) r) as [[m' c] | ] eqn:U; [ | discriminate ].
    intro H; inversion H; subst. now apply moves_result with (r := r).
Qed.

Lemma run_invariant (P : World -> Prop) :
  (forall w e w', P w -> moves w e w' -> P w') ->
  forall evs w w', P w -> run w evs = Next w' -> P w'.
Proof.
  intros Hstep evs. induction evs as [ | e evs IH]; simpl; intros w w' Hw H.
  - inversion H; subst. exact Hw.
  - destruct (step w e) as [w1 | | ] eqn:Hs; try discriminate.
    apply (IH w1 w'); [ | exact H ].
    apply (Hstep w e w1 Hw). apply step_moves. exact Hs.
Qed.

Lemma reachable_invariant (P : World -> Prop) :
  P start ->
  (forall w e w', P w -> moves w e w' -> P w') ->
  forall w, reachable w -> P w.
Proof.
  intros H0 Hstep w [evs Hrun].
  exact (run_invariant P Hstep evs start w H0 Hrun).
Qed.

Lemma extract_length {A : Type} (i : nat) (l rest : list A) (x : A) :
  extract i l = Some (x, rest) -> length l = S (length rest).
Proof.
  revert i rest. induction l as [ | a l IH]; intros i rest; simpl.
  - discriminate.
  - destruct i as [ | i].
    + intro H; inversion H; subst. reflexivity.
    + destruct (extract i l) as [[y r] | ] eqn:X; [ | discriminate ].
      intro H; inversion H; subst. simpl. f_equal. now apply (IH i r).
Qed.

Lemma extract_Forall {A : Type} (P : A -> Prop) (i : nat)
    (l rest : list A) (x : A) :
  extract i l = Some (x, rest) -> Forall P l -> P x /\ Forall P rest.
Proof.
  revert i rest. induction l as [ | a l IH]; intros i rest; simpl.
  - discriminate.
  - destruct i as [ | i].
    + intros H F; inversion H; subst. inversion F; subst. now split.
    + destruct (extract i l) as [[y r] | ] eqn:X; [ | discriminate ].
      intros H F; inversion H; subst. inversion F; subst.
      destruct (IH i r X) as [Hx Hr]; [ assumption | ].
      split; [ assumption | now constructor ].
Qed.

(** *** The transcript *)

Lemma length_replace_last {A : Type} (l : list A) (x : A) :
  l <> [] -> length (removelast l ++ [x]) = length l.
Proof.
  intro H. rewrite (app_removelast_last x H) at 2.
  now rewrite !length_app.
Qed.

Lemma promptEntry_styles (m m' : model) (message : string) :
  sameStyles m m' -> promptEntry m' message = promptEntry m message.
Proof.
  intros (H1 & H2 & _). unfold promptEntry. now rewrite H1, H2.
Qed.

Lemma assistantLine_styles (m m' : model) (text : string) :
  sameStyles m m' -> assistantLine m' text = assistantLine m text.
Proof.
  intros (_ & _ & H3 & _). unfold assistantLine. now rewrite H3.
Qed.

Lemma sameStyles_trans (m1 m2 m3 : model) :
  sameStyles m1 m2 -> sameStyles m2 m3 -> sameStyles m1 m3.
Proof.
  unfold sameStyles. intros (A1 & A2 & A3 & A4 & A5) (B1 & B2 & B3 & B4 & B5).
  repeat split; congruence.
Qed.

Lemma alternates_replace_last (l : list string) (text : string) :
  alternates l -> l <> [] ->
  alternates (removelast l ++ [assistantLine initialModel text]).
Proof.
  intros H Hne. destruct H as [ | l message text0 H]; [ congruence | ].
  rewrite removelast_app by discriminate. simpl.
  rewrite <- app_assoc. simpl. now apply alternates_turn.
Qed.

Lemma alternates_last_turn (l : list string) :
  alternates l -> l <> [] ->
  exists l0 message text,
    l = l0 ++ [promptEntry initialModel message;
               assistantLine initialModel text].
Proof.
  intros H Hne. destruct H as [ | l message text H]; [ congruence | ].
  eauto.
Qed.

Lemma alternates_even (l : list string) :
  alternates l -> Nat.Even (length l).
Proof.
  induction 1 as [ | l message text H [n IH]].
  - exists 0. reflexivity.
  - exists (S n). rewrite length_app. simpl. lia.
Qed.

Lemma app_nonempty {A : Type} (l l' : list A) : l' <> [] -> l ++ l' <> [].
Proof.
  intros H E. apply app_eq_nil in E. tauto.
Qed.

Lemma Update_transcript (m m' : model) (msg : Msg) (c : Cmd) :
  sameStyles initialModel m ->
  alternates (messages m) ->
  (waiting m = true -> messages m <> []) ->
  Update m msg = Some (m', c) ->
  sameStyles initialModel m' /\
  alternates (messages m') /\
  (waiting m' = true -> messages m' <> []) /\
  length (messages m') = length (messages m) + 2 * length (chatRequests c) /\
  length (chatRequests c) = (if isSubmit (Deliver msg) then 1 else 0).
Proof.
  intros St Alt Wne U.
  pose proof (Update_sameStyles _ _ _ _ U) as St'.
  split; [ exact (sameStyles_trans _ _ _ St St') | ].
  destruct (Update_effect _ _ _ _ U)
    as [message text Hs Hm Hw Hc
       | text Hs Hr Hne Hw Hw' Hm Hc
       | text Hr Hne Hw' Hm Hc
       | Hr Hw' Hm Hc
       | Hs Hr Hw' Hm Hc].
  - rewrite Hm, Hc, Hs.
    rewrite (promptEntry_styles _ _ message St),
            (assistantLine_styles _ _ text St).
    repeat split.
    + now apply alternates_turn.
    + intros _. apply app_nonempty. discriminate.
    + rewrite length_app. simpl. lia.
  - rewrite Hm, Hc, Hs.
    rewrite (assistantLine_styles _ _ text St).
    repeat split.
    + now apply alternates_replace_last.
    + intros _. apply app_nonempty. discriminate.
    + rewrite length_replace_last by assumption. simpl. lia.
  - rewrite Hm, Hc, Hw'.
    rewrite (assistantLine_styles _ _ text St).
    assert (Hs : isSubmit (Deliver msg) = false)
      by (destruct msg; simpl in *; congruence).
    rewrite Hs. repeat split.
    + now apply alternates_replace_last.
    + discriminate.
    + rewrite length_replace_last by assumption. simpl. lia.
  - rewrite Hm, Hc, Hw'.
    assert (Hs : isSubmit (Deliver msg) = false)
      by (destruct msg; simpl in *; congruence).
    rewrite Hs. repeat split.
    + assumption.
    + discriminate.
    + simpl. lia.
  - rewrite Hm, Hc, Hw', Hs. repeat split.
    + assumption.
    + assumption.
    + simpl. lia.
Qed.

Lemma start_wellFormed : wellFormed start.
Proof.
  unfold wellFormed, start, sameStyles; simpl.
  repeat split; try constructor; congruence.
Qed.

Lemma moves_wellFormed (w w' : World) (e : Event) :
  wellFormed w -> moves w e w' -> wellFormed w'.
Proof.
  intros (St & Alt & Res & Wne & Rne & Bal) M.
  destruct M as [msg m' c R U | i message rest X
                | resp e n c cs N Ch | i r rest m' c X U];
    unfold wellFormed; cbn [ui chatMessages queued calling results].
  - destruct (Update_transcript _ _ _ _ St Alt Wne U)
      as (St' & Alt' & Wne' & Len & _).
    refine (conj St' (conj Alt' (conj Res (conj Wne' (conj Rne _))))).
    rewrite length_app. lia.
  - apply extract_length in X. unfold GetResponseCmd_send.
    refine (conj St (conj Alt (conj Res (conj Wne (conj _ _))))).
    + intros _. apply app_nonempty. discriminate.
    + rewrite length_app. simpl. lia.
  - refine (conj St (conj Alt (conj _ (conj Wne (conj _ _))))).
    + apply Forall_app. split; [ assumption | ]. now repeat constructor.
    + intros _. apply app_nonempty. discriminate.
    + rewrite length_app. simpl. lia.
  - destruct (Update_transcript _ _ _ _ St Alt Wne U)
      as (St' & Alt' & Wne' & Len & Cnt).
    destruct (extract_Forall _ _ _ _ _ X Res) as [Hr Hrest].
    assert (Hs : isSubmit (Deliver r) = false)
      by (destruct r; simpl in *; congruence).
    rewrite Hs in Cnt.
    refine (conj St' (conj Alt' (conj Hrest (conj Wne' (conj _ _))))).
    + intros _. apply Rne. intro E. rewrite E in X. discriminate.
    + rewrite length_app. lia.
Qed.

Lemma reachable_wellFormed (w : World) : reachable w -> wellFormed w.
Proof.
  apply reachable_invariant.
  - exact start_wellFormed.
  - intros w0 e w1. apply moves_wellFormed.
Qed.

(** [Update] panics only in the slice expression, and only on an empty
    transcript. *)
Lemma Update_total (m : model) (msg : Msg) :
  messages m <> [] \/ (waiting m = false /\ isResponse msg = false) ->
  exists m' c, Update m msg = Some (m', c).
Proof.
  intro H. unfold Update. rewrite forward_eq.
  destruct msg; simpl.
  - destruct (isQuitKey (Key_String k)); [ eauto | ].
    destruct (Key_String k =? "enter"); eauto.
  - destruct (ID =? spinner_ID _)%Z.
    + destruct (waiting m) eqn:W; simpl; [ | eauto ].
      destruct H as [H | [H _]]; [ | discriminate ].
      rewrite (dropLast_nonempty _ H). eauto.
    + destruct (ID =? spinner_ID _)%Z; [ | eauto ].
      destruct (requestDone (header m)); eauto.
  - destruct err0; [ eauto | ].
    destruct H as [H | [_ H]]; [ | discriminate ].
    rewrite (dropLast_nonempty _ H). eauto.
  - destruct err0; eauto.
  - eauto.
  - eauto.
Qed.

(** *** Turn taking *)

Lemma turnRoles_S (n : nat) :
  turnRoles (S n) =
  turnRoles n ++ [ChatMessageRoleUser; ChatMessageRoleAssistant].
Proof.
  unfold turnRoles.
  change (repeat ?x (S n)) with (x :: repeat x n).
  rewrite repeat_cons, concat_app. reflexivity.
Qed.

Lemma length_turnRoles (n : nat) : length (turnRoles n) = 2 * n.
Proof.
  induction n as [ | n IH]; [ reflexivity | ].
  rewrite turnRoles_S, length_app, IH. simpl. lia.
Qed.

Lemma isResponse_not_submit (msg : Msg) :
  isResponse msg = true -> isSubmit (Deliver msg) = false.
Proof.
  destruct msg; simpl; congruence.
Qed.

Lemma moves_oneAtATime (w w' : World) (e : Event) :
  wellFormed w -> oneAtATime w ->
  (isSubmit e = true -> waiting (ui w) = false) ->
  moves w e w' -> oneAtATime w'.
Proof.
  intros (_ & _ & Res & _) (One & Idle) Turn M.
  unfold oneAtATime, outstanding in *.
  destruct M as [msg m' c R U | i message rest X
                | resp e n0 c cs N Ch | i r rest m' c X U];
    cbn [ui chatMessages queued calling results].
  - destruct (Update_effect _ _ _ _ U)
      as [message text Hs Hm Hw Hc
         | text Hs Hr Hne Hw Hw' Hm Hc
         | text Hr Hne Hw' Hm Hc
         | Hr Hw' Hm Hc
         | Hs Hr Hw' Hm Hc];
      try congruence; rewrite Hc, length_app; simpl.
    + specialize (Idle (Turn Hs)). split; [ lia | congruence ].
    + split; [ lia | congruence ].
    + split; [ lia | ].
      intro F. rewrite Hw' in F. specialize (Idle F). lia.
  - apply extract_length in X.
    split; [ lia | ]. intro F. specialize (Idle F). lia.
  - rewrite length_app. simpl.
    split; [ lia | ]. intro F. specialize (Idle F). lia.
  - destruct (extract_Forall _ _ _ _ _ X Res) as [Hr _].
    apply extract_length in X.
    destruct (Update_effect _ _ _ _ U)
      as [message text Hs Hm Hw Hc
         | text Hs Hr' Hne Hw Hw' Hm Hc
         | text Hr' Hne Hw' Hm Hc
         | Hr' Hw' Hm Hc
         | Hs Hr' Hw' Hm Hc];
      try congruence;
      try (rewrite (isResponse_not_submit _ Hr) in Hs; discriminate);
      rewrite Hc, length_app; simpl;
      (split; [ lia | ]); intros _; lia.
Qed.

Lemma moves_historyInTurn (w w' : World) (e : Event) :
  oneAtATime w -> historyInTurn w ->
  assistantReply e ->
  moves w e w' -> historyInTurn w'.
Proof.
  intros (One & _) (n & Roles) Reply M.
  unfold historyInTurn, outstanding in *.
  destruct M as [msg m' c R U | i message rest X
                | resp e n0 c cs N Ch | i r rest m' c X U];
    cbn [ui chatMessages queued calling results].
  - eauto.
  - apply extract_length in X.
    assert (Hc : calling w = 0) by lia. rewrite Hc in *.
    exists n. unfold GetResponseCmd_send.
    rewrite map_app, Roles. simpl. now rewrite app_nil_r.
  - assert (Hn : n0 = 0) by lia. subst n0.
    exists (S n). rewrite map_app, Roles, N, turnRoles_S. simpl.
    rewrite (Reply c) by (rewrite Ch; now left).
    rewrite <- app_assoc, app_nil_r. reflexivity.
  - eauto.
Qed.

Lemma run_turns (evs : list Event) :
  forall w w',
    wellFormed w -> oneAtATime w -> turnTaking w evs ->
    run w evs = Next w' ->
    oneAtATime w' /\
    (historyInTurn w -> Forall assistantReply evs -> historyInTurn w').
Proof.
  induction evs as [ | e evs IH]; simpl; intros w w' WF One TT H.
  - inversion H; subst. split; [ exact One | auto ].
  - destruct TT as [Turn TT].
    destruct (step w e) as [w1 | | ] eqn:Hs; try discriminate.
    apply step_moves in Hs.
    pose proof (moves_wellFormed _ _ _ WF Hs) as WF1.
    pose proof (moves_oneAtATime _ _ _ WF One Turn Hs) as One1.
    destruct (IH w1 w' WF1 One1 TT H) as [One' Hist'].
    split; [ exact One' | ].
    intros Hist AR. inversion AR as [ | e0 l Reply AR']; subst.
    apply Hist'; [ | exact AR' ].
    exact (moves_historyInTurn _ _ _ One Hist Reply Hs).
Qed.

Lemma start_oneAtATime : oneAtATime start.
Proof.
  unfold oneAtATime, outstanding, start; simpl. split; lia.
Qed.

Lemma start_historyInTurn : historyInTurn start.
Proof.
  exists 0. reflexivity.
Qed.

Lemma run_length (evs : list Event) :
  forall w w',
    wellFormed w -> run w evs = Next w' ->
    length (messages (ui w')) =
    length (messages (ui w)) + 2 * submits evs.
Proof.
  unfold submits.
  induction evs as [ | e evs IH]; simpl; intros w w' WF H.
  - inversion H; subst. lia.
  - destruct (step w e) as [w1 | | ] eqn:Hs; try discriminate.
    apply step_moves in Hs.
    rewrite (IH w1 w' (moves_wellFormed _ _ _ WF Hs) H).
    destruct WF as (St & Alt & Res & Wne & _).
    destruct Hs as [msg m' c R U | i message rest X
                   | resp e n c cs N Ch | i r rest m' c X U];
      cbn [ui]; try (simpl; lia).
    + destruct (Update_transcript _ _ _ _ St Alt Wne U)
        as (_ & _ & _ & Len & Cnt).
      rewrite Len, Cnt.
      destruct (isSubmit (Deliver msg)); simpl; lia.
    + destruct (Update_transcript _ _ _ _ St Alt Wne U)
        as (_ & _ & _ & Len & Cnt).
      destruct (extract_Forall _ _ _ _ _ X Res) as [Hr _].
      rewrite (isResponse_not_submit _ Hr) in Cnt.
      rewrite Len, Cnt. simpl. lia.
Qed.

(** A backend answer without choices makes the closure panic before it
    builds its [responseMsg]. *)
Lemma Return_without_choices_crashes (w : World) (e : option error) :
  calling w <> 0 ->
  step w (Return {| Choices := [] |} e) = Crash.
Proof.
  intro H. simpl. destruct (calling w); [ congruence | reflexivity ].
Qed.

(** [Update] assigns the header's flags only on a [statusMsg]. *)
Lemma Update_header_flags (m m' : model) (msg : Msg) (c : Cmd) :
  Update m msg = Some (m', c) ->
  (forall e, msg <> statusMsg e) ->
  requestDone (header m') = requestDone (header m) /\
  requestSuccess (header m') = requestSuccess (header m).
Proof.
  unfold Update. rewrite forward_eq.
  destruct msg; simpl; intros H N.
  - destruct (isQuitKey (Key_String k));
      [ | destruct (Key_String k =? "enter") ];
      inversion H; subst; simpl; split; reflexivity.
  - repeat match type of H with
           | context [if ?b then _ else _] => destruct b eqn:?
           | context [match dropLast ?l with _ => _ end] =>
               destruct (dropLast l)
           end;
      inversion H; subst; simpl; split; congruence.
  - destruct err0; [ | destruct (dropLast (messages m)) ];
      inversion H; subst; simpl; split; reflexivity.
  - destruct (N err0). reflexivity.
  - inversion H; subst; simpl; split; reflexivity.
  - inversion H; subst; simpl; split; reflexivity.
Qed.

(** A submit, whatever the state it arrives in. *)
Lemma Update_submit (m : model) (k : Key) :
  (Key_String k =? "enter") = true ->
  exists m' c,
    Update m (KeyMsg k) = Some (m', c) /\
    messages m' =
      messages m ++
      [promptEntry m
         (wordwrap_String
            (TrimSpace
               (textarea_Value (textarea (fst (forward m (KeyMsg k))))))
            (viewportTextWidth - 3));
       placeholderEntry (fst (forward m (KeyMsg k)))] /\
    waiting m' = true /\
    chatRequests c =
      [wordwrap_String
         (TrimSpace
            (textarea_Value (textarea (fst (forward m (KeyMsg k))))))
         (viewportTextWidth - 3)] /\
    ticks c = [spinner m'].
Proof.
  intro E. unfold Update. rewrite forward_eq.
  cbn [fst snd]. rewrite (enter_not_quit _ E), E.
  eexists. eexists. split; [ reflexivity | ].
  simpl. rewrite <- app_assoc. rewrite !chatRequests_cmdOf, !ticks_cmdOf.
  repeat split.
Qed.

(** ** The claims *)

(** C1 (amended): a submit is processed in every state, also while
    [waiting] is true: it appends the user entry and the placeholder to
    the transcript, sets [waiting] and dispatches one more chat
    completion, and leaves the conversation history as it is.  At most
    one chat completion is outstanding in the states reached by runs
    whose submits all arrive while [waiting] is false. *)
Theorem C1_submit_not_gated_amended :
  (forall (w : World) (k : Key),
      (Key_String k =? "enter") = true ->
      exists w' message text,
        step w (Deliver (KeyMsg k)) = Next w' /\
        messages (ui w') =
          messages (ui w) ++
          [promptEntry (ui w) message; assistantLine (ui w) text] /\
        waiting (ui w') = true /\
        queued w' = queued w ++ [message] /\
        chatMessages w' = chatMessages w /\
        outstanding w' = S (outstanding w)) /\
  (forall (evs : list Event) (w : World),
      run start evs = Next w ->
      turnTaking start evs ->
      outstanding w <= 1).
Proof.
  split.
  - intros w k E.
    destruct (Update_submit (ui w) k E) as (m' & c & U & Hm & Hw & Hc & _).
    simpl. unfold handle. rewrite U, Hc.
    eexists. eexists. eexists (spinner_View _).
    split; [ reflexivity | ].
    unfold outstanding. cbn [ui chatMessages queued calling results].
    rewrite length_app. simpl.
    destruct (forward_fields (ui w) (KeyMsg k)) as (_ & _ & _ & _ & St).
    repeat split; try assumption; try lia.
    rewrite Hm. unfold placeholderEntry, assistantLine.
    destruct St as (_ & _ & -> & _). reflexivity.
  - intros evs w H TT.
    destruct (run_turns evs start w start_wellFormed start_oneAtATime TT H)
      as [[One _] _].
    exact One.
Qed.

(** C2: a [responseMsg] with a non-nil error that arrives while
    [waiting] is true is processed without a panic; [waiting] becomes
    false, the error is stored in [err], and the transcript is left as
    it was: same number of entries, same last entry. *)
Theorem C2_chat_error_keeps_transcript
    (m : model) (message : string) (e : error) :
  waiting m = true ->
  exists m',
    Update m (responseMsg message (Some e)) = Some (m', nilCmd) /\
    waiting m' = false /\
    err m' = Some e /\
    messages m' = messages m /\
    length (messages m') = length (messages m) /\
    last (messages m') ""%string = last (messages m) ""%string.
Proof.
  intros _. unfold Update. rewrite forward_eq. simpl.
  eexists. split; [ reflexivity | ]. simpl. repeat split.
Qed.

(** C3 (amended): the header status never returns to pending, and
    succeeded is never reversed; a [statusMsg] with a nil error sets
    the status to succeeded whatever it was, also when it was failed;
    a [statusMsg] with an error leaves failed as it is and turns
    pending into failed; no other message changes the status. *)
Theorem C3_header_status_amended
    (m m' : model) (msg : Msg) (c : Cmd) :
  Update m msg = Some (m', c) ->
  (status (header m) <> pending -> status (header m') <> pending) /\
  (status (header m) = succeeded -> status (header m') = succeeded) /\
  (msg = statusMsg None -> status (header m') = succeeded) /\
  (forall e, msg = statusMsg (Some e) ->
             requestSuccess (header m) = false ->
             status (header m') = failed) /\
  ((forall e, msg <> statusMsg e) ->
   status (header m') = status (header m)).
Proof.
  intro U.
  assert (Keep : (forall e, msg <> statusMsg e) ->
                 status (header m') = status (header m)).
  { intro N. destruct (Update_header_flags _ _ _ _ U N) as [D S].
    unfold status. now rewrite D, S. }
  destruct msg as [k | ID tag | message e | e | e | x];
    try (rewrite Keep by (intros e0; discriminate);
         repeat split; auto; try discriminate;
         intros ? ?; discriminate).
  clear Keep. revert U. unfold Update. rewrite forward_eq. unfold status.
  destruct e; simpl; intro H; inversion H; subst; simpl.
  - repeat split; try discriminate.
    + destruct (requestSuccess (header m)); discriminate.
    + destruct (requestDone (header m));
        destruct (requestSuccess (header m)); congruence.
    + intros e0 _ ->. reflexivity.
    + intro N. destruct (N (Some e)). reflexivity.
  - repeat split; try discriminate.
    intro N. destruct (N None). reflexivity.
Qed.

(** C4 (amended): a submit whose input is empty after trimming is
    processed like any other submit: the user entry of the wrapped
    empty text and the placeholder are appended to the transcript,
    [waiting] becomes true, and one chat completion is dispatched with
    the wrapped empty text. *)
Theorem C4_blank_submit_amended (m : model) (k : Key) :
  (Key_String k =? "enter") = true ->
  TrimSpace (textarea_Value (textarea (fst (forward m (KeyMsg k)))))
    = ""%string ->
  exists m' c,
    Update m (KeyMsg k) = Some (m', c) /\
    messages m' =
      messages m ++
      [promptEntry m (wordwrap_String "" (viewportTextWidth - 3));
       placeholderEntry (fst (forward m (KeyMsg k)))] /\
    length (messages m') = length (messages m) + 2 /\
    waiting m' = true /\
    chatRequests c = [wordwrap_String "" (viewportTextWidth - 3)].
Proof.
  intros E Blank.
  destruct (Update_submit m k E) as (m' & c & U & Hm & Hw & Hc & _).
  rewrite Blank in Hm, Hc.
  exists m', c. repeat split; try assumption.
  rewrite Hm, length_app. reflexivity.
Qed.

(** C5: in every reachable state the transcript has an even number of
    entries once a turn is completed ([waiting] is false), and an odd
    number of entries can only occur while [waiting] is true. *)
Theorem C5_transcript_parity (w : World) :
  reachable w ->
  (waiting (ui w) = false -> Nat.Even (length (messages (ui w)))) /\
  (Nat.Odd (length (messages (ui w))) -> waiting (ui w) = true).
Proof.
  intro R. apply reachable_wellFormed in R.
  destruct R as (_ & Alt & _). apply alternates_even in Alt.
  split.
  - intros _. exact Alt.
  - intro Odd. destruct (Nat.Even_Odd_False _ Alt Odd).
Qed.

(** C6 (amended): after N submits whose turns are all completed, the
    transcript holds exactly 2N entries, a user entry followed by an
    entry in the response style for each turn, and the conversation
    history holds exactly 2N entries.  The history alternates between
    the user and the assistant role when the backend answers in the
    assistant role and every submit arrived while [waiting] was
    false. *)
Theorem C6_completed_turns_amended (evs : list Event) (w : World) :
  run start evs = Next w ->
  quiescent w ->
  length (messages (ui w)) = 2 * submits evs /\
  alternates (messages (ui w)) /\
  length (chatMessages w) = 2 * submits evs /\
  (turnTaking start evs ->
   Forall assistantReply evs ->
   map Role (chatMessages w) = turnRoles (submits evs)).
Proof.
  intros H (Q1 & Q2 & Q3).
  pose proof (run_length evs start w start_wellFormed H) as Len.
  assert (WF : wellFormed w)
    by (apply reachable_wellFormed; now exists evs).
  destruct WF as (_ & Alt & _ & _ & _ & Bal).
  rewrite Q1, Q2 in Bal. simpl in Bal, Len.
  assert (Hc : length (chatMessages w) = 2 * submits evs) by lia.
  repeat split; try assumption; try lia.
  intros TT AR.
  destruct (run_turns evs start w start_wellFormed start_oneAtATime TT H)
    as [_ Hist].
  destruct (Hist start_historyInTurn AR) as (n & Roles).
  rewrite Q2 in Roles. simpl in Roles. rewrite app_nil_r in Roles.
  assert (Hn : n = submits evs).
  { apply (f_equal (@length string)) in Roles.
    rewrite length_map, length_turnRoles in Roles. lia. }
  now rewrite <- Hn.
Qed.


(** C8 (amended): a chat-spinner tick processed while [waiting] is true
    advances the spinner, replaces the last transcript entry by the
    placeholder of the new frame, re-derives the viewport and scrolls
    it to the bottom, resets the text area (the input buffer is
    cleared), and reschedules the spinner's tick.  The number of
    entries, the earlier entries, [waiting], the header, [err], the
    styles and the conversation history are unchanged, and no chat
    completion is dispatched. *)
Theorem C8_chat_tick_amended (m : model) (ID tag : Z) :
  waiting m = true ->
  messages m <> [] ->
  ID = spinner_ID (spinner (fst (forward m (TickMsg ID tag)))) ->
  exists m' c,
    Update m (TickMsg ID tag) = Some (m', c) /\
    spinner m' =
      fst (spinner_Update (spinner (fst (forward m (TickMsg ID tag))))
                          (TickMsg ID tag)) /\
    messages m' = removelast (messages m) ++ [placeholderEntry m'] /\
    viewport m' =
      viewport_GotoBottom
        (viewport
           (UpdateViewport
              (set_viewport m'
                 (viewport (fst (forward m (TickMsg ID tag))))))) /\
    textarea m' =
      textarea_Reset (textarea (fst (forward m (TickMsg ID tag)))) /\
    ticks c = [spinner m'] /\
    chatRequests c = [] /\
    length (messages m') = length (messages m) /\
    waiting m' = true /\
    header m' = header m /\
    err m' = err m /\
    sameStyles m m' /\
    forall w, ui w = m ->
      step w (Deliver (TickMsg ID tag)) =
      Next {| ui := m';
              chatMessages := chatMessages w;
              queued := queued w;
              calling := calling w;
              results := results w |}.
Proof.
  intros W Hne E.
  destruct (Update_total m (TickMsg ID tag)) as (m' & c & U);
    [ now left | ].
  exists m', c. split; [ exact U | ].
  pose proof (Update_sameStyles _ _ _ _ U) as St.
  assert (Hc : chatRequests c = []).
  { destruct (Update_effect _ _ _ _ U); simpl in *;
      congruence. }
  assert (Hstep : forall w, ui w = m ->
      step w (Deliver (TickMsg ID tag)) =
      Next {| ui := m';
              chatMessages := chatMessages w;
              queued := queued w;
              calling := calling w;
              results := results w |}).
  { intros w <-. simpl. unfold handle. rewrite U, Hc.
    now rewrite app_nil_r. }
  destruct (forward_fields m (TickMsg ID tag)) as (F1 & F2 & F3 & F4 & _).
  revert U. unfold Update.
  destruct (forward m (TickMsg ID tag)) as [m1 [[c1 c2] c3]].
  cbn [fst] in *.
  rewrite <- E, Z.eqb_refl, F1, W. cbn [negb].
  cbn [messages set_spinner]. rewrite F2, (dropLast_nonempty _ Hne).
  intro U. injection U as Hm' Hc'.
  repeat match goal with |- _ /\ _ => split end;
    try exact St; try exact Hstep; try exact Hc;
    subst m' c; cbn;
    rewrite ?ticks_cmdOf, ?length_replace_last by assumption;
    try reflexivity; congruence.
Qed.

(** C9: in every reachable state, when a chat-spinner tick is processed
    with [waiting] true, or a [responseMsg] that a closure produced is
    processed, the transcript is not empty (it ends with a user entry
    followed by an entry in the response style), so the slice
    [messages[:len(messages)-1]] is in range and the step ends in a
    next state. *)
Theorem C9_placeholder_slice_in_range (w : World) :
  reachable w ->
  (forall ID tag,
      waiting (ui w) = true ->
      (exists l message text,
          messages (ui w) =
            l ++ [promptEntry initialModel message;
                  assistantLine initialModel text]) /\
      dropLast (messages (ui w)) <> None /\
      exists w', step w (Deliver (TickMsg ID tag)) = Next w') /\
  (forall i r rest,
      extract i (results w) = Some (r, rest) ->
      (exists l message text,
          messages (ui w) =
            l ++ [promptEntry initialModel message;
                  assistantLine initialModel text]) /\
      dropLast (messages (ui w)) <> None /\
      exists w', step w (Result i) = Next w').
Proof.
  intro R. apply reachable_wellFormed in R.
  destruct R as (_ & Alt & _ & Wne & Rne & Bal).
  split.
  - intros ID tag W. specialize (Wne W).
    split; [ now apply alternates_last_turn | ].
    split; [ rewrite (dropLast_nonempty _ Wne); discriminate | ].
    simpl. unfold handle.
    destruct (Update_total (ui w) (TickMsg ID tag)) as (m' & c & U);
      [ now left | ].
    rewrite U. eauto.
  - intros i r rest X.
    assert (Hne : messages (ui w) <> []).
    { assert (Hc : chatMessages w <> []).
      { apply Rne. intro E. rewrite E in X. discriminate. }
      intro E. rewrite E in Bal. simpl in Bal.
      destruct (chatMessages w); [ congruence | simpl in Bal; lia ]. }
    split; [ now apply alternates_last_turn | ].
    split; [ rewrite (dropLast_nonempty _ Hne); discriminate | ].
    simpl. rewrite X. unfold handle; simpl.
    destruct (Update_total (ui w) r) as (m' & c & U); [ now left | ].
    rewrite U. eauto.
Qed.

End Properties.

(** ** Further properties of the program *)

Section MoreProperties.
Context {T : Types} {C : Components}.

Local Open Scope list_scope.

(** X1: [Update] panics in exactly two situations, both on an empty
    transcript: a tick of the chat spinner while [waiting] is true, and
    a [responseMsg] without error. *)
Theorem X1_Update_panics_exactly (m : model) (msg : Msg) :
  Update m msg = None <->
  messages m = [] /\
  ((exists ID tag,
       msg = TickMsg ID tag /\ waiting m = true /\
       ID = spinner_ID (spinner (fst (forward m msg)))) \/
   (exists message, msg = responseMsg message None)).
Proof.
  pose proof (forward_fields m msg) as (F1 & F2 & _).
  unfold Update.
  destruct (forward m msg) as [m1 [[c1 c2] c3]]. cbn [fst] in *.
  split.
  - destruct msg as [k | ID tag | message e | e | e | x]; cbv beta iota.
    + destruct (isQuitKey (Key_String k)); [ discriminate | ].
      destruct (Key_String k =? "enter"); discriminate.
    + destruct (ID =? spinner_ID (spinner m1))%Z eqn:E.
      * rewrite F1. destruct (waiting m) eqn:W; [ | discriminate ].
        cbn [negb messages set_spinner]. rewrite F2.
        destruct (messages m) eqn:L; cbn [dropLast];
          [ | intro H; discriminate H ].
        intros _. split; [ reflexivity | ]. left. exists ID, tag.
        apply Z.eqb_eq in E. auto.
      * cbv iota.
        destruct (ID =? spinner_ID (statusSpinner (header m1)))%Z;
          [ | discriminate ].
        destruct (requestDone (header m1)); discriminate.
    + destruct e; [ discriminate | ].
      cbn [messages set_waiting]. rewrite F2.
      destruct (messages m) eqn:L; cbn [dropLast];
          [ | intro H; discriminate H ].
      intros _. split; [ reflexivity | ]. right. eauto.
    + destruct e; discriminate.
    + discriminate.
    + discriminate.
  - intros [L [(ID & tag & -> & W & E) | (message & ->)]]; cbv beta iota.
    + rewrite <- E, Z.eqb_refl, F1, W.
      cbn [negb messages set_spinner]. rewrite F2, L. reflexivity.
    + cbn [messages set_waiting]. rewrite F2, L. reflexivity.
Qed.

(** X2: a [responseMsg] without error on a non-empty transcript sets
    [waiting] to false and replaces the last entry by the wrapped
    reply in the response styles.  The number of entries, the input
    buffer as the text area left it, the header and a stored error are
    kept, the viewport is re-derived and scrolled to the bottom, and no
    command is returned. *)
Theorem X2_reply_replaces_placeholder (m : model) (message : string) :
  messages m <> [] ->
  exists m',
    Update m (responseMsg message None) = Some (m', nilCmd) /\
    waiting m' = false /\
    messages m' =
      removelast (messages m) ++
      [responseEntry m (wordwrap_String message (viewportTextWidth - 3))] /\
    length (messages m') = length (messages m) /\
    textarea m' = textarea (fst (forward m (responseMsg message None))) /\
    viewport m' =
      viewport_GotoBottom
        (viewport
           (UpdateViewport
              (set_viewport m'
                 (viewport (fst (forward m (responseMsg message None))))))) /\
    header m' = header m /\
    err m' = err m.
Proof.
  intro Hne.
  pose proof (forward_fields m (responseMsg message None))
    as (F1 & F2 & F3 & F4 & F5).
  unfold Update.
  destruct (forward m (responseMsg message None)) as [m1 [[c1 c2] c3]].
  cbn [fst] in *. cbv beta iota.
  cbn [messages set_waiting]. rewrite F2, (dropLast_nonempty _ Hne).
  eexists. split; [ reflexivity | ].
  destruct F5 as (_ & _ & S3 & S4 & _).
  unfold responseEntry. cbn.
  rewrite length_replace_last by assumption.
  rewrite S3, S4. repeat split; assumption.
Qed.

(** X3: a submit reads the input buffer as the text area left it, trims
    and wraps it, and uses that one text both for the user entry and
    for the chat completion it dispatches.  It appends the user entry
    and the placeholder, re-derives the viewport and scrolls it to the
    bottom, resets the input buffer, sets [waiting], and returns the
    spinner's tick, the completion and the two component commands. *)
Theorem X3_submit (m : model) (k : Key) :
  (Key_String k =? "enter") = true ->
  exists m' message,
    message =
      wordwrap_String
        (TrimSpace (textarea_Value (textarea (fst (forward m (KeyMsg k))))))
        (viewportTextWidth - 3) /\
    Update m (KeyMsg k) =
      Some (m',
            Batch [Tick (spinner m'); GetResponseCmd message;
                   cmdOf (fst (fst (snd (forward m (KeyMsg k)))));
                   cmdOf (snd (fst (snd (forward m (KeyMsg k)))))]) /\
    messages m' =
      messages m ++
      [promptEntry m message; placeholderEntry (fst (forward m (KeyMsg k)))] /\
    textarea m' =
      textarea_Reset (textarea (fst (forward m (KeyMsg k)))) /\
    viewport m' =
      viewport_GotoBottom
        (viewport
           (UpdateViewport
              (set_viewport m' (viewport (fst (forward m (KeyMsg k))))))) /\
    spinner m' = spinner (fst (forward m (KeyMsg k))) /\
    waiting m' = true /\
    header m' = header m /\
    err m' = err m.
Proof.
  intro E.
  pose proof (forward_fields m (KeyMsg k)) as (F1 & F2 & F3 & F4 & F5).
  unfold Update.
  destruct (forward m (KeyMsg k)) as [m1 [[c1 c2] c3]].
  cbn [fst snd] in *. cbv beta iota.
  rewrite (enter_not_quit _ E), E.
  eexists. eexists. split; [ reflexivity | ].
  split; [ reflexivity | ].
  destruct F5 as (S1 & S2 & _).
  unfold promptEntry. cbn.
  rewrite <- app_assoc, F2, S1, S2. repeat split; assumption.
Qed.

(** X4: a tick of the header spinner, while the probe has not answered,
    advances that spinner and reschedules its tick.  Unlike a tick of
    the chat spinner it does not touch the transcript, does not reset
    the input buffer and does not re-derive the viewport. *)
Theorem X4_header_tick (m : model) (ID tag : Z) :
  ID <> spinner_ID (spinner (fst (forward m (TickMsg ID tag)))) ->
  ID = spinner_ID (statusSpinner (header m)) ->
  requestDone (header m) = false ->
  exists m',
    Update m (TickMsg ID tag) =
      Some (m',
            Batch [Tick (statusSpinner (header m'));
                   cmdOf (fst (fst (snd (forward m (TickMsg ID tag)))));
                   cmdOf (snd (fst (snd (forward m (TickMsg ID tag)))))]) /\
    header m' =
      set_statusSpinner (header m)
        (fst (spinner_Update (statusSpinner (header m)) (TickMsg ID tag))) /\
    messages m' = messages m /\
    textarea m' = textarea (fst (forward m (TickMsg ID tag))) /\
    viewport m' = viewport (fst (forward m (TickMsg ID tag))) /\
    spinner m' = spinner (fst (forward m (TickMsg ID tag))) /\
    waiting m' = waiting m /\
    err m' = err m.
Proof.
  intros N E D.
  pose proof (forward_fields m (TickMsg ID tag)) as (F1 & F2 & F3 & F4 & _).
  unfold Update.
  destruct (forward m (TickMsg ID tag)) as [m1 [[c1 c2] c3]].
  cbn [fst snd] in *. cbv beta iota.
  apply Z.eqb_neq in N. rewrite N, F3, <- E, Z.eqb_refl, D.
  eexists. split; [ reflexivity | ].
  cbn. repeat split; assumption.
Qed.

(** X5: [Update] returns the quit command exactly on a key whose
    [String] is [ctrl+c], [q] or [esc], and then returns the model as
    the component updates left it. *)
Theorem X5_quit_keys (m m' : model) (msg : Msg) (c : Cmd) :
  Update m msg = Some (m', c) ->
  (c = Quit <->
   exists k, msg = KeyMsg k /\ isQuitKey (Key_String k) = true) /\
  (c = Quit -> m' = fst (forward m msg)).
Proof.
  unfold Update.
  destruct (forward m msg) as [m1 [[c1 c2] c3]].
  cbn [fst]. cbv beta iota. intro H.
  destruct msg as [k | ID tag | message e | e | e | x].
  - destruct (isQuitKey (Key_String k)) eqn:Q.
    + injection H as <- <-. split; [ | reflexivity ].
      split; [ eauto | reflexivity ].
    + destruct (Key_String k =? "enter"); injection H as <- <-;
        (split; [ | discriminate ]);
        (split; [ discriminate | ]);
        intros (k0 & Hk & Q0); injection Hk as <-; congruence.
  - repeat match type of H with
           | context [if ?b then _ else _] => destruct b
           | context [match dropLast ?l with _ => _ end] =>
               destruct (dropLast l)
           end;
      try discriminate; injection H as <- <-;
      (split; [ | discriminate ]);
      (split; [ discriminate | ]);
      intros (k0 & Hk & _); discriminate.
  - destruct e; [ | destruct (dropLast _) ];
      try discriminate; injection H as <- <-;
      (split; [ | discriminate ]);
      (split; [ discriminate | ]);
      intros (k0 & Hk & _); discriminate.
  - destruct e; injection H as <- <-;
      (split; [ | discriminate ]);
      (split; [ discriminate | ]);
      intros (k0 & Hk & _); discriminate.
  - injection H as <- <-.
    split; [ | discriminate ]. split; [ discriminate | ].
    intros (k0 & Hk & _); discriminate.
  - injection H as <- <-.
    split; [ | discriminate ]. split; [ discriminate | ].
    intros (k0 & Hk & _); discriminate.
Qed.

(** X6: the error slot holds the error of the last message that
    carried one: a message with an error stores it, every other message
    leaves the slot as it is.  No message clears the slot, not even a
    later successful chat or probe result. *)
Theorem X6_error_slot (m m' : model) (msg : Msg) (c : Cmd) :
  Update m msg = Some (m', c) ->
  err m' = match errorOf msg with
           | Some e => Some e
           | None => err m
           end /\
  (err m <> None -> err m' <> None).
Proof.
  intro U.
  assert (H : err m' = match errorOf msg with
                       | Some e => Some e
                       | None => err m
                       end).
  { pose proof (forward_fields m msg) as (_ & _ & _ & F4 & _).
    revert U. unfold Update.
    destruct (forward m msg) as [m1 [[c1 c2] c3]].
    cbn [fst] in *. cbv beta iota. intro H.
    destruct msg as [k | ID tag | message e | e | e | x]; cbn [errorOf].
    - destruct (isQuitKey (Key_String k));
        [ | destruct (Key_String k =? "enter") ];
        injection H as <- _; cbn; assumption.
    - repeat match type of H with
             | context [if ?b then _ else _] => destruct b
             | context [match dropLast ?l with _ => _ end] =>
                 destruct (dropLast l)
             end;
        try discriminate; injection H as <- _; cbn; assumption.
    - destruct e; [ | destruct (dropLast _) ];
        try discriminate; injection H as <- _; cbn;
        try reflexivity; assumption.
    - destruct e; injection H as <- _; cbn;
        try reflexivity; assumption.
    - injection H as <- _. reflexivity.
    - injection H as <- _. assumption. }
  split; [ exact H | ].
  intro N. rewrite H. destruct (errorOf msg); [ discriminate | exact N ].
Qed.

Lemma probes_cmdOf (c : option componentCmd) : probes (cmdOf c) = 0.
Proof. destruct c; reflexivity. Qed.

(** X7: the connectivity probe is dispatched once, by [Init]; no
    command that [Update] returns contains it. *)
Theorem X7_probe_once :
  (forall m, probes (Init m) = 1) /\
  (forall m msg m' c, Update m msg = Some (m', c) -> probes c = 0).
Proof.
  split; [ reflexivity | ].
  intros m msg m' c. unfold Update.
  destruct (forward m msg) as [m1 [[c1 c2] c3]].
  cbv beta iota. intro H.
  destruct msg as [k | ID tag | message e | e | e | x].
  - destruct (isQuitKey (Key_String k));
      [ | destruct (Key_String k =? "enter") ];
      injection H as _ <-; cbn; now rewrite ?probes_cmdOf.
  - repeat match type of H with
           | context [if ?b then _ else _] => destruct b
           | context [match dropLast ?l with _ => _ end] =>
               destruct (dropLast l)
           end;
      try discriminate; injection H as _ <-; cbn;
      now rewrite ?probes_cmdOf.
  - destruct e; [ | destruct (dropLast _) ];
      try discriminate; injection H as _ <-; reflexivity.
  - destruct e; injection H as _ <-; reflexivity.
  - injection H as _ <-. reflexivity.
  - injection H as _ <-. cbn. now rewrite ?probes_cmdOf.
Qed.

Lemma Update_flags (m m' : model) (msg : Msg) (c : Cmd) :
  Update m msg = Some (m', c) ->
  requestDone (header m') = requestDone (header m) || isStatus msg /\
  requestSuccess (header m')
    = requestSuccess (header m) || isGoodStatus msg.
Proof.
  intro U.
  destruct msg as [k | ID tag | message e | e | e | x];
    try (destruct (Update_header_flags _ _ _ _ U) as [D S];
         [ intros e0; discriminate
         | cbn; rewrite D, S, !orb_false_r; split; reflexivity ]).
  pose proof (forward_fields m (statusMsg e)) as (_ & _ & F3 & _).
  revert U. unfold Update.
  destruct (forward m (statusMsg e)) as [m1 [[c1 c2] c3]].
  cbn [fst] in *. cbv beta iota.
  destruct e; intro H; injection H as <- _; cbn;
    rewrite ?F3, ?orb_true_r, ?orb_false_r; split; reflexivity.
Qed.

Lemma run_flags (evs : list Event) :
  forall w w',
    wellFormed w -> run w evs = Next w' ->
    requestDone (header (ui w'))
      = requestDone (header (ui w))
        || existsb (fun _ => true) (probeResults evs) /\
    requestSuccess (header (ui w'))
      = requestSuccess (header (ui w)) || existsb isNil (probeResults evs).
Proof.
  induction evs as [ | e evs IH]; simpl; intros w w' WF H.
  - injection H as <-. now rewrite !orb_false_r.
  - destruct (step w e) as [w1 | | ] eqn:Hs; try discriminate.
    apply step_moves in Hs.
    destruct (IH w1 w' (moves_wellFormed _ _ _ WF Hs) H) as [D S].
    rewrite D, S. clear IH H D S.
    destruct WF as (_ & _ & Res & _).
    destruct Hs as [msg m' c R U | i message rest X
                   | resp e n c cs N Ch | i r rest m' c X U];
      cbn [ui]; try (split; reflexivity).
    + destruct (Update_flags _ _ _ _ U) as [D S]. rewrite D, S.
      destruct msg as [k | ID tag | message e | e | e | x]; cbn;
        rewrite ?orb_false_r; try (split; reflexivity).
      destruct e; cbn; rewrite ?orb_false_r, ?orb_true_r;
        rewrite <- ?orb_assoc; split; reflexivity.
    + destruct (extract_Forall _ _ _ _ _ X Res) as [Hr _].
      destruct (Update_flags _ _ _ _ U) as [D S]. rewrite D, S.
      destruct r; try discriminate. cbn.
      rewrite !orb_false_r. split; reflexivity.
Qed.

(** X8: in the state a run from the start ends in, the header shows
    pending exactly when no probe result was delivered, succeeded
    exactly when some delivered probe result had no error, and failed
    exactly when probe results were delivered and every one of them
    had an error. *)
Theorem X8_header_status_of_run (evs : list Event) (w : World) :
  run start evs = Next w ->
  (status (header (ui w)) = pending <-> probeResults evs = []) /\
  (status (header (ui w)) = succeeded <-> In None (probeResults evs)) /\
  (status (header (ui w)) = failed <->
   probeResults evs <> [] /\ ~ In None (probeResults evs)).
Proof.
  intro H.
  destruct (run_flags evs start w start_wellFormed H) as [D S].
  cbn in D, S. unfold status. rewrite D, S. clear D S H.
  assert (G : existsb isNil (probeResults evs) = true <->
              In None (probeResults evs)).
  { rewrite existsb_exists. split.
    - intros (x & Hin & Hx). destruct x; [ discriminate | exact Hin ].
    - intro Hin. exists None. now split. }
  destruct (probeResults evs) as [ | e l] eqn:P; cbn [existsb orb].
  - cbn [In]. intuition (discriminate || congruence).
  - cbn [existsb] in G.
    destruct (isNil e || existsb isNil l) eqn:B;
      intuition (discriminate || congruence).
Qed.

Lemma results_transcript (w : World) :
  wellFormed w -> results w <> [] -> messages (ui w) <> [].
Proof.
  intros (_ & _ & _ & _ & Rne & Bal) H E.
  specialize (Rne H). rewrite E in Bal. simpl in Bal.
  destruct (chatMessages w); [ congruence | simpl in Bal; lia ].
Qed.

(** X9: in a reachable state the program crashes on exactly one kind
    of event: the backend call of a blocked closure returns a response
    without choices.  The error returned with it plays no part: the
    closure indexes [Choices] before it looks at the error. *)
Theorem X9_only_crash (w : World) (e : Event) :
  reachable w ->
  (step w e = Crash <->
   exists resp err,
     e = Return resp err /\ calling w <> 0 /\ Choices resp = []).
Proof.
  intro R. apply reachable_wellFormed in R.
  pose proof R as (_ & _ & _ & Wne & _).
  split.
  - destruct e as [msg | i | resp err | i]; simpl.
    + destruct (isResponse msg) eqn:Hr; [ discriminate | ].
      unfold handle.
      destruct (Update_total (ui w) msg) as (m' & c & U).
      { destruct (waiting (ui w)) eqn:W; [ left; now apply Wne | ].
        destruct (messages (ui w)); [ now right | left; discriminate ]. }
      rewrite U. discriminate.
    + destruct (extract i (queued w)) as [[message rest] | ];
        discriminate.
    + destruct (calling w) eqn:N; [ discriminate | ].
      unfold GetResponseCmd_receive.
      destruct (Choices resp) eqn:Ch; [ | discriminate ].
      intros _. exists resp, err. repeat split; congruence.
    + destruct (extract i (results w)) as [[r rest] | ] eqn:X;
        [ | discriminate ].
      unfold handle. cbn [ui].
      destruct (Update_total (ui w) r) as (m' & c & U).
      { left. apply results_transcript; [ exact R | ].
        intro E. rewrite E in X. discriminate. }
      rewrite U. discriminate.
  - intros (resp & err & -> & N & Ch). simpl.
    destruct (calling w); [ congruence | ].
    unfold GetResponseCmd_receive. now rewrite Ch.
Qed.

(** X10: the conversation history is append-only.  Along a run it
    grows by one entry for every closure that starts and one for every
    backend call that returns, and by nothing else; [Update] never
    writes it. *)
Theorem X10_history_append_only (evs : list Event) (w w' : World) :
  run w evs = Next w' ->
  exists l,
    chatMessages w' = chatMessages w ++ l /\
    length l = length (filter isClosureStep evs).
Proof.
  revert w. induction evs as [ | e evs IH]; simpl; intros w H.
  - injection H as <-. exists []. now rewrite app_nil_r.
  - destruct (step w e) as [w1 | | ] eqn:Hs; try discriminate.
    destruct (IH w1 H) as (l & Hl & Len). rewrite Hl. clear IH H Hl.
    apply step_moves in Hs.
    destruct Hs as [msg m' c R U | i message rest X
                   | resp e n c cs N Ch | i r rest m' c X U];
      cbn [chatMessages isClosureStep].
    + exists l. now split.
    + unfold GetResponseCmd_send. rewrite <- app_assoc.
      eexists. split; [ reflexivity | ]. simpl. now rewrite Len.
    + rewrite <- app_assoc.
      eexists. split; [ reflexivity | ]. simpl. now rewrite Len.
    + exists l. now split.
Qed.

Lemma length_removelast_lt {A : Type} (l : list A) :
  l <> [] -> length (removelast l) < length l.
Proof.
  intro H. destruct l as [ | a l]; [ congruence | ].
  rewrite (app_removelast_last a H) at 2. rewrite length_app. simpl. lia.
Qed.

Lemma removelast_extends {A : Type} (l l' l'' t t' : list A) :
  l' = removelast l ++ t -> length l <= length l' ->
  l'' = removelast l' ++ t' -> length l' <= length l'' ->
  l'' = removelast l ++ (removelast t ++ t') /\ length l <= length l''.
Proof.
  intros H1 L1 H2 L2. split; [ | lia ].
  destruct t as [ | a t].
  - rewrite app_nil_r in H1. subst l'.
    destruct l as [ | b l]; [ subst l''; reflexivity | ].
    pose proof (length_removelast_lt (b :: l)) as Lt.
    assert (b :: l <> []) as Hne by discriminate.
    specialize (Lt Hne). lia.
  - subst l' l''. rewrite removelast_app by discriminate.
    now rewrite <- app_assoc.
Qed.

Lemma removelast_self {A : Type} (l : list A) :
  exists t, l = removelast l ++ t /\ length l <= length l.
Proof.
  destruct l as [ | a l].
  - exists []. split; [ reflexivity | lia ].
  - exists [last (a :: l) a]. split; [ | lia ].
    apply app_removelast_last. discriminate.
Qed.

Lemma removelast_grown {A : Type} (l x : list A) :
  exists t, l ++ x = removelast l ++ t /\ length l <= length (l ++ x).
Proof.
  destruct (removelast_self l) as (t & Ht & _).
  exists (t ++ x). split.
  - rewrite app_assoc, <- Ht. reflexivity.
  - rewrite length_app. lia.
Qed.

Lemma Update_keeps_transcript (m m' : model) (msg : Msg) (c : Cmd) :
  Update m msg = Some (m', c) ->
  exists t,
    messages m' = removelast (messages m) ++ t /\
    length (messages m) <= length (messages m').
Proof.
  intro U.
  destruct (Update_effect _ _ _ _ U)
    as [message text Hs' Hm Hw Hc
       | text Hs' Hr Hne Hw Hw' Hm Hc
       | text Hr Hne Hw' Hm Hc
       | Hr Hw' Hm Hc
       | Hs' Hr Hw' Hm Hc]; rewrite Hm.
  - apply removelast_grown.
  - eexists. split; [ reflexivity | ].
    rewrite length_replace_last by assumption. lia.
  - eexists. split; [ reflexivity | ].
    rewrite length_replace_last by assumption. lia.
  - apply removelast_self.
  - apply removelast_self.
Qed.

(** X11: along a run the transcript never gets shorter, and every
    entry but the last one present is kept as it is: later events only
    replace the last entry and append entries. *)
Theorem X11_transcript_kept (evs : list Event) (w w' : World) :
  run w evs = Next w' ->
  exists t,
    messages (ui w') = removelast (messages (ui w)) ++ t /\
    length (messages (ui w)) <= length (messages (ui w')).
Proof.
  revert w. induction evs as [ | e evs IH]; simpl; intros w H.
  - injection H as <-. apply removelast_self.
  - destruct (step w e) as [w1 | | ] eqn:Hs; try discriminate.
    destruct (IH w1 H) as (t' & Ht' & Len'). clear IH H.
    assert (One : exists t,
               messages (ui w1) = removelast (messages (ui w)) ++ t /\
               length (messages (ui w)) <= length (messages (ui w1))).
    { apply step_moves in Hs.
      destruct Hs as [msg m' c R U | i message rest X
                     | resp e n c cs N Ch | i r rest m' c X U];
        cbn [ui];
        try (eapply Update_keeps_transcript; eassumption);
        apply removelast_self. }
    destruct One as (t & Ht & Len).
    destruct (removelast_extends _ _ _ _ _ Ht Len Ht' Len') as [E L].
    eauto.
Qed.

Lemma moves_awaited (w w' : World) (e : Event) :
  wellFormed w -> oneAtATime w ->
  (waiting (ui w) = true -> outstanding w = 1) ->
  (isSubmit e = true -> waiting (ui w) = false) ->
  moves w e w' ->
  waiting (ui w') = true -> outstanding w' = 1.
Proof.
  intros (_ & _ & Res & _) (One & Idle) Busy Turn M.
  unfold outstanding in *.
  destruct M as [msg m' c R U | i message rest X
                | resp e n0 c cs N Ch | i r rest m' c X U];
    cbn [ui chatMessages queued calling results].
  - destruct (Update_effect _ _ _ _ U)
      as [message text Hs Hm Hw Hc
         | text Hs Hr Hne Hw Hw' Hm Hc
         | text Hr Hne Hw' Hm Hc
         | Hr Hw' Hm Hc
         | Hs Hr Hw' Hm Hc];
      try congruence; rewrite Hc, length_app; simpl; intro W'.
    + specialize (Idle (Turn Hs)). lia.
    + specialize (Busy Hw). lia.
    + rewrite Hw' in W'. specialize (Busy W'). lia.
  - apply extract_length in X. intro W. specialize (Busy W). lia.
  - rewrite length_app. simpl. intro W. specialize (Busy W). lia.
  - destruct (extract_Forall _ _ _ _ _ X Res) as [Hr _].
    destruct (Update_effect _ _ _ _ U)
      as [message text Hs Hm Hw Hc
         | text Hs Hr' Hne Hw Hw' Hm Hc
         | text Hr' Hne Hw' Hm Hc
         | Hr' Hw' Hm Hc
         | Hs Hr' Hw' Hm Hc];
      try congruence;
      rewrite (isResponse_not_submit _ Hr) in Hs; discriminate.
Qed.

Lemma run_awaited (evs : list Event) :
  forall w w',
    wellFormed w -> oneAtATime w ->
    (waiting (ui w) = true -> outstanding w = 1) ->
    turnTaking w evs ->
    run w evs = Next w' ->
    oneAtATime w' /\ (waiting (ui w') = true -> outstanding w' = 1).
Proof.
  induction evs as [ | e evs IH]; simpl; intros w w' WF One Busy TT H.
  - injection H as <-. now split.
  - destruct TT as [Turn TT].
    destruct (step w e) as [w1 | | ] eqn:Hs; try discriminate.
    apply step_moves in Hs.
    apply (IH w1 w'); try assumption.
    + exact (moves_wellFormed _ _ _ WF Hs).
    + exact (moves_oneAtATime _ _ _ WF One Turn Hs).
    + exact (moves_awaited _ _ _ WF One Busy Turn Hs).
Qed.

(** X12: in a run whose submits all arrive while [waiting] is false,
    [waiting] is true exactly while a chat completion is outstanding
    (dispatched and not yet delivered), and there is then exactly
    one. *)
Theorem X12_waiting_means_outstanding (evs : list Event) (w : World) :
  run start evs = Next w ->
  turnTaking start evs ->
  (waiting (ui w) = true <-> outstanding w = 1) /\
  (waiting (ui w) = false <-> outstanding w = 0).
Proof.
  intros H TT.
  destruct (run_awaited evs start w start_wellFormed start_oneAtATime)
    as [[One Idle] Busy]; try assumption.
  { cbn. discriminate. }
  destruct (waiting (ui w)) eqn:W.
  - specialize (Busy eq_refl). split; split; try discriminate; auto.
    intro Z. lia.
  - specialize (Idle eq_refl). split; split; try discriminate; auto.
    intro Z. lia.
Qed.

Section Display.

(** What a viewport holds, for a viewport that keeps what [SetContent]
    gave it while it scrolls and handles messages. *)
Variable content : viewport_Model -> string.
Hypothesis content_SetContent :
  forall vp s, content (viewport_SetContent vp s) = s.
Hypothesis content_GotoBottom :
  forall vp, content (viewport_GotoBottom vp) = content vp.
Hypothesis content_Update :
  forall vp msg, content (fst (viewport_Update vp msg)) = content vp.

Lemma Update_shown (m m' : model) (msg : Msg) (c : Cmd) :
  Update m msg = Some (m', c) ->
  messages m = [] \/ content (viewport m) = display m ->
  messages m' = [] \/ content (viewport m') = display m'.
Proof.
  unfold Update. rewrite forward_eq. unfold display.
  intros U S.
  assert (Keep : messages m = [] \/
                 content (fst (viewport_Update (viewport m) msg))
                 = TermRenderer_Render (renderer m)
                     ((String.concat newline (messages m)
                       ++ newline ++ lrm) ++ newline ++ " ")%string)
    by (rewrite content_Update; exact S).
  clear S. cbn in Keep.
  assert (Fresh : forall vp s, content (viewport_GotoBottom
                                          (viewport_SetContent vp s)) = s)
    by (intros vp s; now rewrite content_GotoBottom, content_SetContent).
  destruct msg as [k | ID tag | message e | e | e | x]; cbn in U.
  - destruct (isQuitKey (Key_String k));
      [ | destruct (Key_String k =? "enter") ];
      injection U as <- _; cbn;
      first [ exact Keep | right; apply Fresh ].
  - repeat match type of U with
           | context [if ?b then _ else _] => destruct b
           | context [match dropLast ?l with _ => _ end] =>
               destruct (dropLast l)
           end;
      try discriminate; injection U as <- _; cbn;
      first [ exact Keep | right; apply Fresh ].
  - destruct e; [ | destruct (dropLast _) ];
      try discriminate; injection U as <- _; cbn;
      first [ exact Keep | right; apply Fresh ].
  - destruct e; injection U as <- _; cbn; exact Keep.
  - injection U as <- _; cbn; exact Keep.
  - injection U as <- _; cbn; exact Keep.
Qed.

(** X13: for a viewport that keeps its content while it scrolls and
    handles messages, in every reachable state with a non-empty
    transcript the viewport holds the rendering of the current
    transcript: no event changes the transcript without re-deriving
    the viewport. *)
Theorem X13_viewport_shows_transcript (w : World) :
  reachable w ->
  messages (ui w) = [] \/ content (viewport (ui w)) = display (ui w).
Proof.
  revert w. apply reachable_invariant.
  - left. reflexivity.
  - intros w e w' S M.
    destruct M as [msg m' c R U | i message rest X
                  | resp e n c cs N Ch | i r rest m' c X U];
      cbn [ui]; try exact S; exact (Update_shown _ _ _ _ U S).
Qed.

End Display.

Lemma Update_header_text (m m' : model) (msg : Msg) (c : Cmd) :
  Update m msg = Some (m', c) ->
  modelName (header m') = modelName (header m) /\
  style (header m') = style (header m).
Proof.
  unfold Update. rewrite forward_eq.
  destruct msg as [k | ID tag | message e | e | e | x]; cbn; intro H.
  - destruct (isQuitKey (Key_String k));
      [ | destruct (Key_String k =? "enter") ];
      injection H as <- _; split; reflexivity.
  - repeat match type of H with
           | context [if ?b then _ else _] => destruct b
           | context [match dropLast ?l with _ => _ end] =>
               destruct (dropLast l)
           end;
      try discriminate; injection H as <- _; split; reflexivity.
  - destruct e; [ | destruct (dropLast _) ];
      try discriminate; injection H as <- _; split; reflexivity.
  - destruct e; injection H as <- _; split; reflexivity.
  - injection H as <- _; split; reflexivity.
  - injection H as <- _; split; reflexivity.
Qed.

Lemma reachable_header_text (w : World) :
  reachable w ->
  modelName (header (ui w)) = GPT3Dot5Turbo /\
  style (header (ui w)) = headerStyle.
Proof.
  revert w. apply reachable_invariant.
  - split; reflexivity.
  - intros w e w' [Hn Hs] M.
    destruct M as [msg m' c R U | i message rest X
                  | resp e n c cs N Ch | i r rest m' c X U];
      cbn [ui]; try (split; assumption);
      destruct (Update_header_text _ _ _ _ U) as [-> ->];
      split; assumption.
Qed.

(** X14: in every reachable state the header is drawn without a panic
    once the probe has answered: the model name, 64 spaces and the
    mark of the outcome, in the header style.  While the probe is
    pending the header shows the spinner's frame after the padding
    that fills the line, and [strings.Repeat] panics exactly when the
    frame is longer than 65 bytes. *)
Theorem X14_header_view (w : World) :
  reachable w ->
  headerModel_View (header (ui w)) =
  match status (header (ui w)) with
  | succeeded =>
      Some (Style_Render headerStyle
              (GPT3Dot5Turbo ++ copies " " 64 ++ checkMark)%string)
  | failed =>
      Some (Style_Render headerStyle
              (GPT3Dot5Turbo ++ copies " " 64 ++ crossMark)%string)
  | pending =>
      if (65 <? len (spinner_View (statusSpinner (header (ui w)))))%Z
      then None
      else
        Some (Style_Render headerStyle
                (GPT3Dot5Turbo
                   ++ copies " "
                        (Z.to_nat
                           (65 - len (spinner_View
                                        (statusSpinner (header (ui w))))))
                   ++ spinner_View (statusSpinner (header (ui w))))%string)
  end.
Proof.
  intro R. destruct (reachable_header_text w R) as [Hn Hs].
  unfold headerModel_View, status. rewrite Hn, Hs.
  destruct (requestDone (header (ui w))).
  - destruct (requestSuccess (header (ui w))); reflexivity.
  - set (v := spinner_View (statusSpinner (header (ui w)))).
    change (viewportWidth - len GPT3Dot5Turbo - len v - 4)%Z
      with (82 - 13 - len v - 4)%Z.
    unfold Repeat.
    assert (Hm : maxInt = 9223372036854775807%Z) by reflexivity.
    assert (H1 : len " " = 1%Z) by reflexivity.
    assert (Hv : (0 <= len v)%Z) by (unfold len; lia).
    rewrite Hm, H1.
    destruct (Z.ltb_spec (82 - 13 - len v - 4) 0);
      destruct (Z.ltb_spec 65 (len v)); try lia; [ reflexivity | ].
    destruct (Z.ltb_spec 9223372036854775807 (1 * (82 - 13 - len v - 4)));
      try lia.
    replace (82 - 13 - len v - 4)%Z with (65 - len v)%Z by lia.
    reflexivity.
Qed.

(** X15: [getApiKey] returns only a non-empty key, the value of
    [OPENAI_API_KEY] after the [.env] file was loaded; it ends the
    process exactly when loading failed or the variable is empty or
    unset. *)
Theorem X15_getApiKey (Load : option error) (Getenv : string -> string) :
  (forall key,
      getApiKey Load Getenv = Returns key ->
      Load = None /\ key = Getenv "OPENAI_API_KEY"%string /\
      key <> ""%string) /\
  ((exists line, getApiKey Load Getenv = Fatal line) <->
   Load <> None \/ Getenv "OPENAI_API_KEY"%string = ""%string).
Proof.
  unfold getApiKey. destruct Load as [e | ].
  - split; [ discriminate | ].
    split; [ left; discriminate | eauto ].
  - destruct (Getenv "OPENAI_API_KEY"%string =? "")%string eqn:E.
    + apply String.eqb_eq in E. split; [ discriminate | ].
      split; [ now right | eauto ].
    + apply String.eqb_neq in E. split.
      * intros key H. injection H as <-. now repeat split.
      * split; [ intros [line H]; discriminate | intros [N | N]; congruence ].
Qed.

Lemma CountNewline_app (a b : string) :
  CountNewline (a ++ b)%string = (CountNewline a + CountNewline b)%Z.
Proof.
  induction a as [ | c a IH]; simpl; [ reflexivity | ].
  rewrite IH. lia.
Qed.

Lemma CountNewline_copies (k : nat) :
  CountNewline (copies newline k) = Z.of_nat k.
Proof.
  induction k as [ | k IH]; [ reflexivity | ].
  cbn [copies]. rewrite CountNewline_app, IH.
  change (CountNewline newline) with 1%Z. lia.
Qed.

Lemma CountNewline_nonneg (s : string) : (0 <= CountNewline s)%Z.
Proof.
  induction s as [ | c s IH]; simpl; [ lia | ].
  destruct (Ascii.eqb c (ascii_of_nat 10)); lia.
Qed.

(** X16: the first version's [UpdateViewport] never panics, and it
    puts before the joined transcript exactly the empty lines that
    bring the text to [viewportHeight - 2] lines: the viewport gets
    that many lines for a short transcript, and the transcript alone
    once it is longer. *)
Theorem X16_first_version_bottom_anchor (m : FirstVersion.model) :
  exists offset,
    FirstVersion.UpdateViewport m =
      Some (FirstVersion.set_viewport m
              (viewport_SetContent (FirstVersion.viewport m)
                 (offset
                    ++ String.concat newline (FirstVersion.messages m))%string))
    /\
    offset =
      copies newline
        (Z.to_nat
           (17 - CountNewline
                   (String.concat newline (FirstVersion.messages m)))) /\
    (CountNewline
       (offset ++ String.concat newline (FirstVersion.messages m))%string
     + 1 =
     Z.max (FirstVersion.viewportHeight - 2)
           (CountNewline
              (String.concat newline (FirstVersion.messages m)) + 1))%Z.
Proof.
  unfold FirstVersion.UpdateViewport.
  set (joined := String.concat newline (FirstVersion.messages m)).
  pose proof (CountNewline_nonneg joined) as Hn.
  unfold FirstVersion.max, FirstVersion.viewportHeight, Repeat.
  assert (Hm : maxInt = 9223372036854775807%Z) by reflexivity.
  assert (H1 : len newline = 1%Z) by reflexivity.
  rewrite Hm, H1.
  destruct (Z.gtb_spec (20 - (CountNewline joined + 1) - 2) 0) as [G | G].
  - destruct (Z.ltb_spec (20 - (CountNewline joined + 1) - 2) 0); try lia.
    destruct (Z.ltb_spec 9223372036854775807
                (1 * (20 - (CountNewline joined + 1) - 2))); try lia.
    replace (20 - (CountNewline joined + 1) - 2)%Z
      with (17 - CountNewline joined)%Z by lia.
    eexists. split; [ reflexivity | ]. split; [ reflexivity | ].
    rewrite CountNewline_app, CountNewline_copies. lia.
  - replace (Z.to_nat (17 - CountNewline joined)) with 0%nat by lia.
    exists EmptyString. split; [ reflexivity | ]. split; [ reflexivity | ].
    cbn [append]. lia.
Qed.

End MoreProperties.

(** ** The claims on concrete runs *)

Module Examples.

Import Demo.

Local Open Scope list_scope.

#[local] Existing Instance Demo.types.
#[local] Existing Instance Demo.components.

Ltac evaluate :=
  repeat match goal with |- _ /\ _ => split end; vm_compute; reflexivity.

(** C1, counterexample: after [hi] is submitted [waiting] is true; a
    second enter is accepted all the same: two more entries are
    appended and a second chat completion is outstanding. *)
Lemma C1_counterexample :
  waiting (ui (world sayHi)) = true /\
  messages (ui (world sayHi)) = ["> hi"; "> ."]%string /\
  queued (world sayHi) = ["hi"%string] /\
  step (world sayHi) (Deliver enter) = Next (world (sayHi ++ [Deliver enter])) /\
  messages (ui (world (sayHi ++ [Deliver enter])))
    = ["> hi"; "> ."; "> "; "> ."]%string /\
  queued (world (sayHi ++ [Deliver enter])) = ["hi"; ""]%string /\
  outstanding (world (sayHi ++ [Deliver enter])) = 2.
Proof.
  evaluate.
Qed.

(** C2, witness: the model that awaits the answer to [hi] receives a
    failed chat result. *)
Lemma C2_witness :
  exists m',
    Update (ui (world sayHi)) (responseMsg "" (Some "timeout"%string))
      = Some (m', nilCmd) /\
    waiting m' = false /\
    err m' = Some "timeout"%string /\
    messages m' = messages (ui (world sayHi)) /\
    length (messages m') = length (messages (ui (world sayHi))) /\
    last (messages m') ""%string
      = last (messages (ui (world sayHi))) ""%string.
Proof.
  apply (C2_chat_error_keeps_transcript
           (ui (world sayHi)) "" "timeout"%string).
  vm_compute. reflexivity.
Defined.

(** C3, counterexample: the probe fails, the status is failed; a later
    [statusMsg] with a nil error turns it into succeeded. *)
Lemma C3_counterexample :
  Update initialModel (probeResult (Some "no route"%string))
    = Some (modelAfter initialModel (probeResult (Some "no route"%string)),
            nilCmd) /\
  status
    (header (modelAfter initialModel (probeResult (Some "no route"%string))))
    = failed /\
  Update (modelAfter initialModel (probeResult (Some "no route"%string)))
         (probeResult None)
    = Some (modelAfter
              (modelAfter initialModel (probeResult (Some "no route"%string)))
              (probeResult None),
            nilCmd) /\
  status
    (header
       (modelAfter
          (modelAfter initialModel (probeResult (Some "no route"%string)))
          (probeResult None)))
    = succeeded.
Proof.
  evaluate.
Qed.

(** C3, witness: the failed probe result on the initial model. *)
Lemma C3_witness :
  (status (header initialModel) <> pending ->
   status
     (header (modelAfter initialModel (probeResult (Some "no route"%string))))
     <> pending) /\
  (status (header initialModel) = succeeded ->
   status
     (header (modelAfter initialModel (probeResult (Some "no route"%string))))
     = succeeded) /\
  (probeResult (Some "no route"%string) = statusMsg None ->
   status
     (header (modelAfter initialModel (probeResult (Some "no route"%string))))
     = succeeded) /\
  (forall e,
      probeResult (Some "no route"%string) = statusMsg (Some e) ->
      requestSuccess (header initialModel) = false ->
      status
        (header (modelAfter initialModel (probeResult (Some "no route"%string))))
        = failed) /\
  ((forall e, probeResult (Some "no route"%string) <> statusMsg e) ->
   status
     (header (modelAfter initialModel (probeResult (Some "no route"%string))))
     = status (header initialModel)).
Proof.
  apply (C3_header_status_amended
           initialModel
           (modelAfter initialModel (probeResult (Some "no route"%string)))
           (probeResult (Some "no route"%string))
           nilCmd).
  vm_compute. reflexivity.
Defined.

(** C4, counterexample: the text area holds a space, which trims to
    the empty string; enter appends two entries, sets [waiting] and
    dispatches a chat completion. *)
Lemma C4_counterexample :
  textarea_Value (textarea blank) = " "%string /\
  TrimSpace (textarea_Value (textarea (fst (forward blank enter))))
    = ""%string /\
  messages blank = [] /\
  waiting blank = false /\
  Update blank enter = Some (modelAfter blank enter, cmdAfter blank enter) /\
  messages (modelAfter blank enter) = ["> "; "> ."]%string /\
  waiting (modelAfter blank enter) = true /\
  chatRequests (cmdAfter blank enter) = [""%string].
Proof.
  evaluate.
Qed.

(** C4, witness: the same submit. *)
Lemma C4_witness :
  exists m' c,
    Update blank enter = Some (m', c) /\
    messages m' =
      messages blank ++
      [promptEntry blank (wordwrap_String "" (viewportTextWidth - 3));
       placeholderEntry (fst (forward blank enter))] /\
    length (messages m') = length (messages blank) + 2 /\
    waiting m' = true /\
    chatRequests c = [wordwrap_String "" (viewportTextWidth - 3)].
Proof.
  apply (C4_blank_submit_amended blank "enter"%string).
  - vm_compute. reflexivity.
  - vm_compute. reflexivity.
Defined.

(** C5, witness: the state after two completed turns. *)
Lemma C5_witness :
  (waiting (ui (world twoTurns)) = false ->
   Nat.Even (length (messages (ui (world twoTurns))))) /\
  (Nat.Odd (length (messages (ui (world twoTurns)))) ->
   waiting (ui (world twoTurns)) = true).
Proof.
  apply (C5_transcript_parity (world twoTurns)).
  exists twoTurns. vm_compute. reflexivity.
Defined.

(** C6, counterexample: two submits, the second while the first is
    awaited; both closures append their user entry before either
    answer arrives.  Both turns complete, transcript and history hold
    four entries, and the history reads user, user, assistant,
    assistant. *)
Lemma C6_counterexample :
  run start overlapping = Next (world overlapping) /\
  submits overlapping = 2 /\
  queued (world overlapping) = [] /\
  calling (world overlapping) = 0 /\
  results (world overlapping) = [] /\
  messages (ui (world overlapping))
    = ["> h"; "> ."; "> "; "> again"]%string /\
  map Role (chatMessages (world overlapping))
    = ["user"; "user"; "assistant"; "assistant"]%string /\
  turnRoles 2 = ["user"; "assistant"; "user"; "assistant"]%string.
Proof.
  evaluate.
Qed.

(** C6, witness: two turns, one after the other. *)
Lemma C6_witness :
  length (messages (ui (world twoTurns))) = 2 * submits twoTurns /\
  alternates (messages (ui (world twoTurns))) /\
  length (chatMessages (world twoTurns)) = 2 * submits twoTurns /\
  (turnTaking start twoTurns ->
   Forall assistantReply twoTurns ->
   map Role (chatMessages (world twoTurns))
     = turnRoles (submits twoTurns)).
Proof.
  apply (C6_completed_turns_amended twoTurns (world twoTurns)).
  - vm_compute. reflexivity.
  - unfold quiescent. evaluate.
Defined.


(** C8, counterexample: the text area holds [a] while the answer is
    awaited; the chat spinner's tick empties it. *)
Lemma C8_counterexample :
  waiting typing = true /\
  spinner_ID (spinner (fst (forward typing chatTick))) = 2%Z /\
  textarea_Value (textarea typing) = "a"%string /\
  Update typing chatTick
    = Some (modelAfter typing chatTick, cmdAfter typing chatTick) /\
  textarea_Value (textarea (modelAfter typing chatTick)) = ""%string /\
  messages typing = ["> hi"; "> ."]%string /\
  messages (modelAfter typing chatTick) = ["> hi"; "> '"]%string.
Proof.
  evaluate.
Qed.

(** C8, witness: the same tick. *)
Lemma C8_witness :
  exists m' c,
    Update typing chatTick = Some (m', c) /\
    textarea m' = textarea_Reset (textarea (fst (forward typing chatTick))) /\
    ticks c = [spinner m'] /\
    length (messages m') = length (messages typing) /\
    waiting m' = true.
Proof.
  destruct (C8_chat_tick_amended typing 2 0)
    as (m' & c & U & _ & _ & _ & Hta & Ht & _ & Hl & Hw & _).
  - vm_compute. reflexivity.
  - vm_compute. discriminate.
  - vm_compute. reflexivity.
  - exists m', c. repeat split; assumption.
Defined.

(** C9, witness: a tick and the delivery of the result in that state. *)
Lemma C9_witness :
  waiting (ui (world answered)) = true /\
  results (world answered) = [responseMsg "hello"%string None] /\
  dropLast (messages (ui (world answered))) <> None /\
  (exists w', step (world answered) (Deliver chatTick) = Next w') /\
  (exists w', step (world answered) (Result 0) = Next w').
Proof.
  destruct (C9_placeholder_slice_in_range (world answered)) as [Ht Hr].
  - exists answered. vm_compute. reflexivity.
  - destruct (Ht 2%Z 0%Z) as (_ & Hd & Hs); [ vm_compute; reflexivity | ].
    destruct (Hr 0 (responseMsg "hello"%string None) [])
      as (_ & _ & Hs'); [ vm_compute; reflexivity | ].
    repeat match goal with |- _ /\ _ => split end;
      try assumption; vm_compute; reflexivity.
Defined.

End Examples.

(** ** The further properties on concrete runs *)

Module MoreExamples.

Import Demo.

Local Open Scope list_scope.

#[local] Existing Instance Demo.types.
#[local] Existing Instance Demo.components.

(** X2, witness: the answer [hello] reaches the model that awaits the
    answer to [hi]. *)
Lemma X2_witness :
  exists m',
    Update (ui (world sayHi)) (responseMsg "hello"%string None)
      = Some (m', nilCmd) /\
    waiting m' = false /\
    length (messages m') = length (messages (ui (world sayHi))) /\
    err m' = err (ui (world sayHi)).
Proof.
  destruct (X2_reply_replaces_placeholder (ui (world sayHi)) "hello"%string)
    as (m' & U & W & _ & L & _ & _ & _ & E).
  - vm_compute. discriminate.
  - exists m'. repeat split; assumption.
Defined.

(** X3, witness: enter on the initial model. *)
Lemma X3_witness :
  exists m' message,
    Update initialModel enter
      = Some (m',
              Batch [Tick (spinner m'); GetResponseCmd message;
                     cmdOf (fst (fst (snd (forward initialModel enter))));
                     cmdOf (snd (fst (snd (forward initialModel enter))))]) /\
    waiting m' = true.
Proof.
  destruct (X3_submit (T := Demo.types) initialModel "enter"%string)
    as (m' & message & _ & U & _ & _ & _ & _ & W & _).
  - reflexivity.
  - exists m', message. split; assumption.
Defined.

(** X4, witness: a tick of the header spinner on the initial model. *)
Lemma X4_witness :
  exists m',
    Update initialModel headerTick
      = Some (m',
              Batch [Tick (statusSpinner (header m'));
                     cmdOf (fst (fst (snd (forward initialModel headerTick))));
                     cmdOf (snd (fst (snd (forward initialModel headerTick))))])
    /\
    messages m' = messages initialModel /\
    waiting m' = waiting initialModel.
Proof.
  destruct (X4_header_tick (T := Demo.types) initialModel 1 0)
    as (m' & U & _ & Hm & _ & _ & _ & W & _).
  - vm_compute. discriminate.
  - reflexivity.
  - reflexivity.
  - exists m'. repeat split; assumption.
Defined.

(** X5, witness: the key [q] on the initial model. *)
Lemma X5_witness :
  exists k, key "q" = KeyMsg k /\ isQuitKey (Key_String k) = true.
Proof.
  destruct (X5_quit_keys (T := Demo.types) initialModel (modelAfter initialModel (key "q"))
              (key "q") Quit) as [[H _] _].
  - vm_compute. reflexivity.
  - apply H. reflexivity.
Defined.

(** X6, witness: a failure message on the initial model. *)
Lemma X6_witness :
  err (modelAfter initialModel failure) = Some "boom"%string.
Proof.
  destruct (X6_error_slot (T := Demo.types) initialModel (modelAfter initialModel failure)
              failure nilCmd) as [H _].
  - vm_compute. reflexivity.
  - exact H.
Defined.

(** X8, witness: a failed probe result followed by one without
    error. *)
Lemma X8_witness :
  status (header (ui (world probing))) = succeeded.
Proof.
  destruct (X8_header_status_of_run probing (world probing))
    as (_ & [_ H] & _).
  - vm_compute. reflexivity.
  - apply H. right. left. reflexivity.
Defined.

(** X9, witness: the backend answers the closure for [hi] without
    choices. *)
Lemma X9_witness :
  step (world asking) (Return {| Choices := [] |} (Some "timeout"%string))
    = Crash.
Proof.
  apply (X9_only_crash (world asking)).
  - exists asking. vm_compute. reflexivity.
  - exists {| Choices := [] |}, (Some "timeout"%string).
    repeat split. vm_compute. discriminate.
Defined.

(** X10, witness: two completed turns. *)
Lemma X10_witness :
  exists l,
    chatMessages (world twoTurns) = chatMessages start ++ l /\
    length l = length (filter isClosureStep twoTurns).
Proof.
  apply (X10_history_append_only twoTurns start (world twoTurns)).
  vm_compute. reflexivity.
Defined.

(** X11, witness: the answer to [hi] arrives. *)
Lemma X11_witness :
  exists t,
    messages (ui (world (sayHi ++ answer "hello")))
      = removelast (messages (ui (world sayHi))) ++ t /\
    length (messages (ui (world sayHi)))
      <= length (messages (ui (world (sayHi ++ answer "hello")))).
Proof.
  apply (X11_transcript_kept (answer "hello") (world sayHi)
           (world (sayHi ++ answer "hello"))).
  vm_compute. reflexivity.
Defined.

(** X12, witness: two turns, one after the other. *)
Lemma X12_witness :
  (waiting (ui (world twoTurns)) = true <-> outstanding (world twoTurns) = 1)
  /\
  (waiting (ui (world twoTurns)) = false <-> outstanding (world twoTurns) = 0).
Proof.
  apply (X12_waiting_means_outstanding twoTurns (world twoTurns)).
  - vm_compute. reflexivity.
  - vm_compute.
    repeat match goal with |- _ /\ _ => split end;
      try exact I; intro H; first [ reflexivity | discriminate H ].
Defined.

(** X13, witness: the viewport of the small implementation after two
    turns. *)
Lemma X13_witness :
  messages (ui (world twoTurns)) = [] \/
  content (viewport (ui (world twoTurns))) = display (ui (world twoTurns)).
Proof.
  apply (X13_viewport_shows_transcript (T := Demo.types) content).
  - intros vp s. reflexivity.
  - intros vp. reflexivity.
  - intros vp msg. reflexivity.
  - exists twoTurns. vm_compute. reflexivity.
Defined.

(** X14, witness: the header after the probe results of [probing]. *)
Lemma X14_witness :
  headerModel_View (header (ui (world probing))) =
  match status (header (ui (world probing))) with
  | succeeded =>
      Some (Style_Render headerStyle
              (GPT3Dot5Turbo ++ copies " " 64 ++ checkMark)%string)
  | failed =>
      Some (Style_Render headerStyle
              (GPT3Dot5Turbo ++ copies " " 64 ++ crossMark)%string)
  | pending =>
      if (65 <? len (spinner_View
                       (statusSpinner (header (ui (world probing))))))%Z
      then None
      else
        Some (Style_Render headerStyle
                (GPT3Dot5Turbo
                   ++ copies " "
                        (Z.to_nat
                           (65 - len (spinner_View
                                        (statusSpinner
                                           (header (ui (world probing)))))))
                   ++ spinner_View
                        (statusSpinner (header (ui (world probing)))))%string)
  end.
Proof.
  apply (X14_header_view (world probing)).
  exists probing. vm_compute. reflexivity.
Defined.

End MoreExamples.
